(** * parse_influx.py: the fetch / normalize / persist job and its guard

    A shallow embedding of [src/parse_influx.py]: the decorator
    [catch_exceptions], the job [parse_to_influx], and the contracts of the
    packages the job calls ([flatten_dict.flatten], the builtins [min] and
    [max] on [datetime.datetime], [arrow], [schedule]).

    Python values are an inductive type, a [dict] is an association list
    in insertion order with string keys, and a statement that may raise is
    a computation in a small state-and-exception monad over the observable
    world (the rows handed to the sink, the lines printed, the clock).
    Times are integers, in microseconds.  The fetch capabilities, the sink,
    the clock and [arrow]'s string parser are parameters. *)

From Stdlib Require Import String Ascii ZArith List Lia Bool.
Import ListNotations.
Open Scope string_scope.
Open Scope Z_scope.
Set Warnings "-register-all".

(** ** Python values *)

Module Py.

(** [datetime.datetime]: the wall-clock fields as microseconds since the
    epoch, and its [tzinfo]: which object it is (objects are told apart by
    a number, as [is] tells them apart) together with the UTC offset that
    object gives for this datetime, in microseconds.  [None] is a naive
    datetime.  Two datetimes of one zone on either side of a change of
    offset have the same object and different offsets. *)
Record datetime := mk_datetime { wall : Z; tz : option (nat * Z) }.

(** [d.tzinfo] and [d.utcoffset()] *)
Definition tzinfo (d : datetime) : option nat := option_map fst (tz d).
Definition utcoffset (d : datetime) : option Z := option_map snd (tz d).

(** The values a fetch capability can hand back; a number is a [VInt]
    (the job looks at no number but to test the truth of a fetch result).
    [VCancelJob] is the class object [schedule.CancelJob]. *)
Inductive pyval : Type :=
| VNone
| VBool (b : bool)
| VInt (z : Z)
| VStr (s : string)
| VDatetime (d : datetime)
| VDict (items : list (string * pyval))
| VList (elts : list pyval)
| VTuple (elts : list pyval)
| VCancelJob.

(** The exceptions that the modelled code raises itself; [OtherError] stands
    for whatever a collaborator raises. *)
Inductive pyexn :=
| KeyError
| TypeError
| ValueError
| AssertionError
| OverflowError
| OtherError (name : string).

Inductive result (A : Type) :=
| Ok (a : A)
| Raise (e : pyexn).
Arguments Ok {A} a.
Arguments Raise {A} e.

(** [bool(v)] *)
Definition truthy (v : pyval) : bool :=
  match v with
  | VNone => false
  | VBool b => b
  | VInt z => negb (z =? 0)
  | VStr s => negb (String.eqb s "")
  | VDatetime _ => true
  | VDict items => match items with [] => false | _ => true end
  | VList elts | VTuple elts => match elts with [] => false | _ => true end
  | VCancelJob => true
  end.

(** [d.get(k)] on the association list of a dict. *)
Fixpoint lookup (k : string) (d : list (string * pyval)) : option pyval :=
  match d with
  | [] => None
  | (k', v) :: d' => if String.eqb k k' then Some v else lookup k d'
  end.

Definition has_key (k : string) (d : list (string * pyval)) : bool :=
  match lookup k d with Some _ => true | None => false end.

(** [e[k]] for a string key: only a dict can be subscripted by a string. *)
Definition getitem (e : pyval) (k : string) : result pyval :=
  match e with
  | VDict d => match lookup k d with Some v => Ok v | None => Raise KeyError end
  | _ => Raise TypeError
  end.

(** [needle in hay] on strings. *)
Fixpoint str_contains (needle hay : string) : bool :=
  String.prefix needle hay
  || match hay with
     | EmptyString => false
     | String _ rest => str_contains needle rest
     end.

(** [x in l] on a list of strings. *)
Definition str_in (x : string) (l : list string) : bool :=
  existsb (String.eqb x) l.

(** [s.split(sep)] for a non-empty separator: [skip] counts the characters
    of a separator still to be dropped, [cur] is the piece being built. *)
Fixpoint split_go (sep : string) (skip : nat) (cur s : string) : list string :=
  match s with
  | EmptyString => [cur]
  | String c rest =>
      match skip with
      | S k => split_go sep k cur rest
      | O =>
          if String.prefix sep s
          then cur :: split_go sep (Nat.pred (String.length sep)) "" rest
          else split_go sep 0 (cur ++ String c "") rest
      end
  end.

Definition split (s sep : string) : list string := split_go sep 0 "" s.

End Py.
Import Py.

Example split_pair : split "AT->CH" "->" = ["AT"; "CH"].
Proof. reflexivity. Qed.

Example split_three : split "AT->IT-NO" "->" = ["AT"; "IT-NO"].
Proof. reflexivity. Qed.

Example split_none : split "AT" "->" = ["AT"].
Proof. reflexivity. Qed.

(** ** flatten_dict.flatten(d, reducer="underscore") *)

Module FlattenDict.

(** [underscore_reducer(k1, k2)]: [k2] at the top level, [k1_k2] below. *)
Definition underscore_reducer (k1 : option string) (k2 : string) : string :=
  match k1 with
  | None => k2
  | Some p => p ++ "_" ++ k2
  end.

Definition FlatRow := list (string * pyval).

(** One [(key, value)] step of the library's [_flatten]: a mapping value is
    descended into with its reduced key as parent and its own key is never
    added (an empty mapping contributes nothing); any other value is stored
    under the reduced key, unless that key is already in [flat_dict]:
    [raise ValueError("duplicated key ...")]. *)
Fixpoint flatten_value (flat_key : string) (value : pyval) (flat_dict : FlatRow)
  {struct value} : result FlatRow :=
  match value with
  | VDict d =>
      (fix walk (d : list (string * pyval)) (flat_dict : FlatRow) : result FlatRow :=
         match d with
         | [] => Ok flat_dict
         | (key, v) :: d' =>
             match flatten_value (underscore_reducer (Some flat_key) key) v flat_dict with
             | Ok flat_dict' => walk d' flat_dict'
             | Raise e => Raise e
             end
         end) d flat_dict
  | _ =>
      if has_key flat_key flat_dict then Raise ValueError
      else Ok (flat_dict ++ [(flat_key, value)])%list
  end.

(** [_flatten(d, parent)]: the loop over the items of one mapping. *)
Fixpoint _flatten (d : list (string * pyval)) (parent : option string)
  (flat_dict : FlatRow) : result FlatRow :=
  match d with
  | [] => Ok flat_dict
  | (key, value) :: d' =>
      match flatten_value (underscore_reducer parent key) value flat_dict with
      | Ok flat_dict' => _flatten d' parent flat_dict'
      | Raise e => Raise e
      end
  end.

(** [flatten(d, reducer="underscore")]; the library takes a mapping. *)
Definition flatten (d : pyval) : result FlatRow :=
  match d with
  | VDict items => _flatten items None []
  | _ => Raise ValueError
  end.

End FlattenDict.
Import FlattenDict.

Example flatten_breakdown :
  flatten (VDict [("breakdown", VDict [("coal", VInt 10)])])
  = Ok [("breakdown_coal", VInt 10)].
Proof. reflexivity. Qed.

Example flatten_duplicated :
  flatten (VDict [("a", VDict [("b", VInt 1)]); ("a_b", VInt 2)]) = Raise ValueError.
Proof. reflexivity. Qed.

(** ** datetime comparison, the builtins min and max, arrow *)

Module Datetime.

Definition is_aware (d : datetime) : bool :=
  match tz d with Some _ => true | None => false end.

(** The instant of a datetime: its wall-clock fields minus its offset (the
    fields themselves for a naive one). *)
Definition instant (d : datetime) : Z :=
  match tz d with
  | Some (_, off) => wall d - off
  | None => wall d
  end.

(** [a.tzinfo is b.tzinfo] *)
Definition same_tzinfo (a b : datetime) : bool :=
  match tz a, tz b with
  | None, None => true
  | Some (i, _), Some (j, _) => Nat.eqb i j
  | _, _ => false
  end.

(** [a > b] and [a < b] ([datetime._cmp]): two datetimes with the same
    [tzinfo] object are compared by their wall-clock fields, whatever
    their offsets; with different objects two aware datetimes are
    compared by instant, and a naive and an aware one cannot be ordered
    ("can't compare offset-naive and offset-aware datetimes"). *)
Definition dt_gt (a b : datetime) : result bool :=
  if same_tzinfo a b then Ok (wall b <? wall a)
  else if is_aware a && is_aware b then Ok (instant b <? instant a)
  else Raise TypeError.

Definition dt_lt (a b : datetime) : result bool :=
  if same_tzinfo a b then Ok (wall a <? wall b)
  else if is_aware a && is_aware b then Ok (instant a <? instant b)
  else Raise TypeError.

(** The loop of the builtin [max]: the running best is replaced by a later
    element only when that element is strictly greater. *)
Fixpoint max_from (best : datetime) (l : list datetime) : result datetime :=
  match l with
  | [] => Ok best
  | d :: l' =>
      match dt_gt d best with
      | Ok true => max_from d l'
      | Ok false => max_from best l'
      | Raise e => Raise e
      end
  end.

Fixpoint min_from (best : datetime) (l : list datetime) : result datetime :=
  match l with
  | [] => Ok best
  | d :: l' =>
      match dt_lt d best with
      | Ok true => min_from d l'
      | Ok false => min_from best l'
      | Raise e => Raise e
      end
  end.

(** [max(dts)], [min(dts)]: [ValueError] on an empty sequence. *)
Definition py_max (dts : list datetime) : result datetime :=
  match dts with
  | [] => Raise ValueError
  | d :: l => max_from d l
  end.

Definition py_min (dts : list datetime) : result datetime :=
  match dts with
  | [] => Raise ValueError
  | d :: l => min_from d l
  end.

(** The [tzinfo] object that [arrow] uses for UTC. *)
Definition UTC : nat := 0%nat.

(** An [arrow.Arrow]: wall-clock fields, its [tzinfo] object and the offset
    that object gives. *)
Record Arrow := mk_arrow { a_wall : Z; a_tzinfo : nat; a_offset : Z }.

(** [arrow.utcnow()] for a clock reading given in UTC microseconds. *)
Definition utc_arrow (now : Z) : Arrow :=
  {| a_wall := now; a_tzinfo := UTC; a_offset := 0 |}.

(** [arrow.get(dt)] on a datetime keeps its fields and its [tzinfo]; a
    naive one is taken to be in UTC. *)
Definition arrow_get_datetime (d : datetime) : Arrow :=
  match tz d with
  | Some (i, off) => {| a_wall := wall d; a_tzinfo := i; a_offset := off |}
  | None => utc_arrow (wall d)
  end.

(** [datetime.min] and [datetime.max]: 0001-01-01T00:00:00 and
    9999-12-31T23:59:59.999999. *)
Definition datetime_min : Z := -62135596800000000.
Definition datetime_max : Z := 253402300799999999.

(** [a.to("UTC")]: the same instant with offset zero.  The instant is
    computed as fields minus offset, which raises [OverflowError] ("date
    value out of range") when it leaves the years 1..9999. *)
Definition representable (z : Z) : bool :=
  (datetime_min <=? z) && (z <=? datetime_max).

Definition to_UTC (a : Arrow) : result Arrow :=
  let utc := a_wall a - a_offset a in
  if representable utc then Ok (utc_arrow utc) else Raise OverflowError.

(** [a.datetime]: always an aware datetime. *)
Definition arrow_datetime (a : Arrow) : datetime :=
  mk_datetime (a_wall a) (Some (a_tzinfo a, a_offset a)).

(** [(a - b)] in microseconds; [total_seconds()] divides this by 10**6,
    and that float is above 7200.0 exactly when the integer is above
    7200 * 10**6 (the division is correctly rounded and 7200.0 is a
    float). *)
Definition micros_between (a b : Arrow) : Z :=
  (a_wall a - a_offset a) - (a_wall b - a_offset b).

Definition two_hours : Z := 2 * 3600 * 1000000.

End Datetime.
Import Datetime.

(** ** pandas.DataFrame, as far as the job uses it *)

Module Pandas.

(** A frame: the row labels ([None] is the default integer range), the
    column names, and per row the cells that hold a value (any other cell
    of the row is a missing value). *)
Record DataFrame := mk_df {
  df_index : option (list (option pyval));
  df_columns : list string;
  df_rows : list FlatRow
}.

Fixpoint add_columns (cols keys : list string) : list string :=
  match keys with
  | [] => cols
  | k :: ks => add_columns (if str_in k cols then cols else (cols ++ [k])%list) ks
  end.

Fixpoint columns_of (cols : list string) (rows : list FlatRow) : list string :=
  match rows with
  | [] => cols
  | r :: rs => columns_of (add_columns cols (map fst r)) rs
  end.

Definition is_None (v : pyval) : bool :=
  match v with VNone => true | _ => false end.

(** The cells of a row that hold a value: an entry whose value is [None]
    is a missing value in the frame, as an absent entry is. *)
Definition cells_of (row : FlatRow) : FlatRow :=
  filter (fun kv => negb (is_None (snd kv))) row.

(** [pd.DataFrame(list_of_dicts)]: one row per dict, the columns are the
    keys in order of first appearance (also those of a [None] entry). *)
Definition pd_DataFrame (rows : list FlatRow) : DataFrame :=
  {| df_index := None;
     df_columns := columns_of [] rows;
     df_rows := map cells_of rows |}.

Definition drop_key (key : string) (row : FlatRow) : FlatRow :=
  filter (fun kv => negb (String.eqb key (fst kv))) row.

(** [df.set_index(key)]: [KeyError] when there is no such column. *)
Definition set_index (df : DataFrame) (key : string) : result DataFrame :=
  if str_in key (df_columns df)
  then Ok {| df_index := Some (map (lookup key) (df_rows df));
             df_columns := filter (fun c => negb (String.eqb key c)) (df_columns df);
             df_rows := map (drop_key key) (df_rows df) |}
  else Raise KeyError.

End Pandas.
Import Pandas.

(** ** The observable world and the monad of statements *)

Module World.

(** Where in the pipeline an exception was raised (what the printed
    traceback shows). *)
Inductive stage := Resolve | Lookup | Fetch | Normalize | Write | Validate.

Record traceback := mk_tb { tb_stage : stage; tb_exn : pyexn }.

(** [max_dt_warning] *)
Inductive dt_warning :=
| NoWarning
| TooOld
| FreshEnough (now : Arrow).

(** What [print] and the scheduler's logger emit. *)
Inductive line :=
| ParserReturnedNothing (res : pyval)
| LacksDatetime (res : pyval)
| VerboseReport (res : pyval) (elapsed_time : Z) (first_dt last_dt : Arrow)
    (max_dt_warning : dt_warning)
| Fetched (stamp : Z) (data_type zone : string)
| TracebackAt (stamp : Z) (tb : traceback)
| RunningJob (id : nat).

(** One call of [client.write_points]. *)
Record write_call := mk_call { wc_frame : DataFrame; wc_series : string }.

(** [reads] counts the clock readings taken so far, [sink_calls] are the
    frames handed to the sink, [out] is the output stream. *)
Record world := mk_world {
  reads : nat;
  sink_calls : list write_call;
  out : list line
}.

Inductive outcome (A : Type) :=
| Returned (a : A)
| Raised (tb : traceback).
Arguments Returned {A} a.
Arguments Raised {A} tb.

Definition M (A : Type) : Type := world -> outcome A * world.

Definition ret {A} (a : A) : M A := fun w => (Returned a, w).

Definition bind {A B} (m : M A) (k : A -> M B) : M B :=
  fun w =>
    match m w with
    | (Returned a, w') => k a w'
    | (Raised tb, w') => (Raised tb, w')
    end.

(** [try: m  except: handler] with a bare [except]. *)
Definition try_except {A} (m : M A) (handler : traceback -> M A) : M A :=
  fun w =>
    match m w with
    | (Returned a, w') => (Returned a, w')
    | (Raised tb, w') => handler tb w'
    end.

(** A pure step that may raise, raised from stage [s]. *)
Definition lift_at {A} (s : stage) (r : result A) : M A :=
  fun w =>
    match r with
    | Ok a => (Returned a, w)
    | Raise e => (Raised (mk_tb s e), w)
    end.

Definition print (l : line) : M unit :=
  fun w => (Returned tt, mk_world (reads w) (sink_calls w) (out w ++ [l])%list).

End World.
Import World.

Declare Scope py_scope.
Delimit Scope py_scope with py.
Notation "x <- m ;; k" := (bind m (fun x => k))
  (at level 61, m at next level, right associativity) : py_scope.
Notation "m ;; k" := (bind m (fun _ => k))
  (at level 61, right associativity) : py_scope.
Open Scope py_scope.

(** ** The job: parse_to_influx and its guard *)

(** A fetch capability, called with the positional arguments and the
    keyword argument [target_datetime]. *)
Definition parser : Type := list string -> pyval -> result pyval.

(** [FreshnessReport]: the three values computed at the end of a run. *)
Record FreshnessReport := mk_report {
  first_dt : Arrow;
  last_dt : Arrow;
  max_dt_warning : dt_warning
}.

(** [[e["datetime"] for e in res_list]] *)
Fixpoint datetimes_of (res_list : list pyval) : result (list pyval) :=
  match res_list with
  | [] => Ok []
  | e :: rest =>
      match getitem e "datetime" with
      | Raise ex => Raise ex
      | Ok v =>
          match datetimes_of rest with
          | Raise ex => Raise ex
          | Ok vs => Ok (v :: vs)
          end
      end
  end.

(** [type(v) is datetime.datetime] *)
Definition is_native_datetime (v : pyval) : bool :=
  match v with VDatetime _ => true | _ => false end.

(** The datetimes inside values that passed the assertion. *)
Fixpoint native_values (vs : list pyval) : list datetime :=
  match vs with
  | [] => []
  | VDatetime d :: rest => d :: native_values rest
  | _ :: rest => native_values rest
  end.

(** The loop [for var in res_list: reduced_list.append(flatten(var, ...))]. *)
Fixpoint flatten_all (res_list : list pyval) : result (list FlatRow) :=
  match res_list with
  | [] => Ok []
  | var :: rest =>
      match flatten var with
      | Raise ex => Raise ex
      | Ok row =>
          match flatten_all rest with
          | Raise ex => Raise ex
          | Ok rows => Ok (row :: rows)
          end
      end
  end.

(** [list(res)] for a list or tuple, [[res]] otherwise (lines 90-93). *)
Definition to_res_list (res : pyval) : list pyval :=
  match res with
  | VList elts | VTuple elts => elts
  | _ => [res]
  end.

(** What lines 90-112 make of a fetch result: either the bare [except] of
    line 97 was entered, or there is a batch: the datetimes, the flattened
    rows and the frame built from them. *)
Inductive normalized :=
| MissingDatetime
| Batch (dts : list pyval) (reduced_list : list FlatRow) (df : DataFrame).

(** Lines 90-112.  The assertion of line 104 and [flatten] may raise. *)
Definition normalize (res : pyval) : result normalized :=
  let res_list := to_res_list res in
  match datetimes_of res_list with
  | Raise _ => Ok MissingDatetime
  | Ok dts =>
      if forallb is_native_datetime dts then
        match flatten_all res_list with
        | Raise ex => Raise ex
        | Ok reduced_list => Ok (Batch dts reduced_list (pd_DataFrame reduced_list))
        end
      else Raise AssertionError
  end.

(** The name of the series the frame is written under (lines 115-118); the
    test of line 115 is a substring test. *)
Definition series_target (data_type zone : string) : string :=
  if str_contains "exchange" data_type then data_type ++ zone else data_type.


Section Job.

(** The collaborators: the registry of fetch capabilities, [arrow.get] on a
    value that is not a datetime, the clock (the n-th reading, in UTC
    microseconds), the sink's answer to a write given the calls it has
    already received ([None]: accepted), and the module's [verbose]. *)
Variable PARSER_KEY_TO_DICT : string -> option (string -> option parser).
Variable arrow_parse : pyval -> result Arrow.
Variable clock : nat -> Z.
Variable sink_answer : list write_call -> DataFrame -> string -> option pyexn.
Variable verbose : bool.

(** [time.time()], [datetime.datetime.now()], [arrow.utcnow()]: one more
    reading of the clock. *)
Definition read_clock : M Z :=
  fun w => (Returned (clock (reads w)), mk_world (S (reads w)) (sink_calls w) (out w)).

(** [arrow.get(v)] *)
Definition arrow_get (v : pyval) : result Arrow :=
  match v with
  | VDatetime d => Ok (arrow_get_datetime d)
  | _ => arrow_parse v
  end.

(** [PARSER_KEY_TO_DICT[data_type][zone]] *)
Definition parser_lookup (data_type zone : string) : result parser :=
  match PARSER_KEY_TO_DICT data_type with
  | None => Raise KeyError
  | Some by_zone =>
      match by_zone zone with
      | None => Raise KeyError
      | Some p => Ok p
      end
  end.

(** [client.write_points(df, series, protocol="json")]: the call reaches the
    sink, which accepts it or raises. *)
Definition write_points (df : DataFrame) (series : string) : M unit :=
  fun w =>
    let w' := mk_world (reads w) (sink_calls w ++ [mk_call df series])%list (out w) in
    match sink_answer (sink_calls w) df series with
    | None => (Returned tt, w')
    | Some e => (Raised (mk_tb Write e), w')
    end.

(** Lines 74-83: the target is parsed only when it is truthy; the fetch
    capability is looked up and called.  Returns the rebound
    [target_datetime], [start] and [res]. *)
Definition fetch (zone data_type : string) (target_datetime : pyval)
  : M (pyval * Z * pyval) :=
  target_datetime <-
    (if truthy target_datetime then
       a <- lift_at Resolve (arrow_get target_datetime) ;;
       ret (VDatetime (arrow_datetime a))
     else ret target_datetime) ;;
  start <- read_clock ;;
  parser <- lift_at Lookup (parser_lookup data_type zone) ;;
  let args :=
    if str_in data_type ["exchange"; "exchangeForecast"] then split zone "->"
    else [zone] in
  res <- lift_at Fetch (parser args target_datetime) ;;
  ret (target_datetime, start, res).

(** Lines 120-128: last and first datetime in UTC, and the warning, which
    is computed only when [target_datetime] is falsy. *)
Definition assess (dts : list datetime) (target_datetime : pyval) : M FreshnessReport :=
  mx <- lift_at Validate (py_max dts) ;;
  last <- lift_at Validate (to_UTC (arrow_get_datetime mx)) ;;
  mn <- lift_at Validate (py_min dts) ;;
  first <- lift_at Validate (to_UTC (arrow_get_datetime mn)) ;;
  warning <-
    (if negb (truthy target_datetime) then
       now <- read_clock ;;
       if two_hours <? micros_between (utc_arrow now) last then ret TooOld
       else
         now' <- read_clock ;;
         ret (FreshEnough (utc_arrow now'))
     else ret NoWarning) ;;
  ret (mk_report first last warning).

(** Lines 89-145: what is done with a truthy fetch result. *)
Definition process (zone data_type : string) (target_datetime : pyval)
  (start : Z) (res : pyval) : M pyval :=
  now <- read_clock ;;
  let elapsed_time := now - start in
  batch <- lift_at Normalize (normalize res) ;;
  match batch with
  | MissingDatetime =>
      print (LacksDatetime res) ;;
      ret VNone
  | Batch dts reduced_list df =>
      df <- lift_at Normalize (set_index df "datetime") ;;
      write_points df (series_target data_type zone) ;;
      report <- assess (native_values dts) target_datetime ;;
      (if verbose
       then print (VerboseReport res elapsed_time (first_dt report) (last_dt report)
                     (max_dt_warning report))
       else
         stamp <- read_clock ;;
         print (Fetched stamp data_type zone)) ;;
      ret VNone
  end.

(** The undecorated body of [parse_to_influx] (lines 74-145). *)
Definition parse_to_influx_body (zone data_type : string) (target_datetime : pyval)
  : M pyval :=
  fetched <- fetch zone data_type target_datetime ;;
  let '(target_datetime, start, res) := fetched in
  if negb (truthy res) then
    print (ParserReturnedNothing res) ;;
    ret VNone
  else process zone data_type target_datetime start res.

(** The decorator (lines 28-43): whatever the wrapped function raises is
    caught, the time and the traceback are printed, and the wrapper returns
    [schedule.CancelJob] when [cancel_on_failure] is set and falls off its
    end (returning [None]) otherwise. *)
Definition catch_exceptions (cancel_on_failure : bool) {Args : Type}
  (job_func : Args -> M pyval) : Args -> M pyval :=
  fun args =>
    try_except (job_func args)
      (fun tb =>
         stamp <- read_clock ;;
         print (TracebackAt stamp tb) ;;
         if cancel_on_failure then ret VCancelJob else ret VNone).

(** [@catch_exceptions(cancel_on_failure=False) def parse_to_influx(...)] *)
Definition parse_to_influx (zone data_type : string) (target_datetime : pyval)
  : M pyval :=
  catch_exceptions false
    (fun '(zone, data_type, target_datetime) =>
       parse_to_influx_body zone data_type target_datetime)
    (zone, data_type, target_datetime).

(** ** The scheduler of the [schedule] package *)

(** A registered job.  Jobs are compared by identity, here [job_id]. *)
Record Job := mk_job {
  job_id : nat;
  period : Z;
  next_run : Z;
  last_run : option Z;
  job_func : M pyval
}.

(** The scheduler together with the world; [ran] lists the ids of the runs
    started so far (what the package logs as "Running job ..."). *)
Record sched := mk_sched {
  jobs : list Job;
  wld : world;
  ran : list nat
}.

(** [Job.run]: call the function, record [last_run], schedule the next run
    one period after now. *)
Definition Job_run (job : Job) : M (pyval * Job) :=
  r <- job_func job ;;
  last <- read_clock ;;
  now <- read_clock ;;
  ret (r, mk_job (job_id job) (period job) (now + period job) (Some last) (job_func job)).

(** The job object is mutated in place: its entry in the list changes. *)
Definition store_job (job' : Job) (js : list Job) : list Job :=
  map (fun j => if Nat.eqb (job_id j) (job_id job') then job' else j) js.

(** [Scheduler.cancel_job]: [self.jobs.remove(job)], nothing when absent. *)
Fixpoint cancel_job (id : nat) (js : list Job) : list Job :=
  match js with
  | [] => []
  | j :: js' => if Nat.eqb (job_id j) id then js' else j :: cancel_job id js'
  end.

(** [ret is CancelJob] *)
Definition is_CancelJob (v : pyval) : bool :=
  match v with VCancelJob => true | _ => false end.

(** [Scheduler._run_job]: run the job and cancel it when it returned
    [CancelJob].  An exception of the job function passes through. *)
Definition _run_job (job : Job) (s : sched) : outcome unit * sched :=
  let started := (ran s ++ [job_id job])%list in
  match Job_run job (wld s) with
  | (Returned (r, job'), w') =>
      let js := store_job job' (jobs s) in
      (Returned tt,
       mk_sched (if is_CancelJob r then cancel_job (job_id job) js else js) w' started)
  | (Raised tb, w') => (Raised tb, mk_sched (jobs s) w' started)
  end.

(** [for job in todo: self._run_job(job)] *)
Fixpoint run_jobs (todo : list Job) (s : sched) : outcome unit * sched :=
  match todo with
  | [] => (Returned tt, s)
  | job :: rest =>
      match _run_job job s with
      | (Returned _, s') => run_jobs rest s'
      | (Raised tb, s') => (Raised tb, s')
      end
  end.

(** [Scheduler.run_all]: every job of a copy of the list, in order. *)
Definition run_all (s : sched) : outcome unit * sched :=
  run_jobs (jobs s) s.

(** [job.should_run] for every job, in list order: each test reads the
    clock; returns the runnable jobs and the number of readings. *)
Fixpoint runnable_jobs (js : list Job) (n : nat) : list Job * nat :=
  match js with
  | [] => ([], n)
  | j :: js' =>
      let '(rest, n') := runnable_jobs js' (S n) in
      (if next_run j <=? clock n then j :: rest else rest, n')
  end.

(** [sorted] on jobs: [Job.__lt__] compares [next_run]; the sort is
    stable. *)
Fixpoint insert_job (j : Job) (sorted : list Job) : list Job :=
  match sorted with
  | [] => [j]
  | k :: rest =>
      if next_run j <? next_run k then j :: sorted else k :: insert_job j rest
  end.

Definition sorted_jobs (js : list Job) : list Job :=
  fold_left (fun acc j => insert_job j acc) js [].

(** [Scheduler.run_pending] *)
Definition run_pending (s : sched) : outcome unit * sched :=
  let '(todo, n) := runnable_jobs (jobs s) (reads (wld s)) in
  let w := mk_world n (sink_calls (wld s)) (out (wld s)) in
  run_jobs (sorted_jobs todo) (mk_sched (jobs s) w (ran s)).

(** [n] turns of the loop [while True: schedule.run_pending(); time.sleep(1)];
    an exception leaving [run_pending] ends the loop. *)
Fixpoint polling_loop (n : nat) (s : sched) : outcome unit * sched :=
  match n with
  | O => (Returned tt, s)
  | S k =>
      match run_pending s with
      | (Returned _, s') => polling_loop k s'
      | (Raised tb, s') => (Raised tb, s')
      end
  end.

(** [schedule.every(n).<unit>.do(job_func, ...)]: a new job object, first
    due one period from now, appended to the list. *)
Definition every_do (period : Z) (f : M pyval) (s : sched) : sched :=
  mk_sched
    (jobs s ++ [mk_job (length (jobs s)) period (clock (reads (wld s)) + period) None f])%list
    (mk_world (S (reads (wld s))) (sink_calls (wld s)) (out (wld s)))
    (ran s).

Definition hours (n : Z) : Z := n * 3600 * 1000000.
Definition minutes (n : Z) : Z := n * 60 * 1000000.

Definition exchange_zones : list string :=
  ["AT->CH"; "AT->CZ"; "AT->DE"; "AT->HU"; "AT->IT-NO"; "AT->SI"].

(** Lines 151-184: the jobs are registered in this order, all for a live
    poll ([target_datetime=None]). *)
Definition register_jobs (s : sched) : sched :=
  let s := every_do (hours 12) (parse_to_influx "AT" "production" VNone) s in
  let s := every_do (hours 12) (parse_to_influx "AT" "generationForecast" VNone) s in
  let s := every_do (hours 12) (parse_to_influx "AT" "consumptionForecast" VNone) s in
  let s :=
    fold_left
      (fun s zone_name =>
         let s := every_do (hours 12) (parse_to_influx zone_name "exchange" VNone) s in
         every_do (hours 12) (parse_to_influx zone_name "exchangeForecast" VNone) s)
      exchange_zones s in
  let s := every_do (minutes 15) (parse_to_influx "AT" "price" VNone) s in
  every_do (minutes 15) (parse_to_influx "AT" "consumption" VNone) s.

(** Lines 147-192, with [turns] turns of the final loop. *)
Definition main (turns : nat) (w : world) : outcome unit * sched :=
  match run_all (register_jobs (mk_sched [] w [])) with
  | (Returned _, s) => polling_loop turns s
  | (Raised tb, s) => (Raised tb, s)
  end.

End Job.

(** ** Concrete collaborators and fetch results *)

Module Scenario.

(** 2018-07-02 00:00:00+02:00 and 2018-07-03 14:30:00+00:00, the datetimes
    of the docstring, in microseconds; the first is in a zone of its own
    (object 1), the second in UTC. *)
Definition T0 : datetime := mk_datetime 1530489600000000 (Some (1%nat, 7200000000)).
Definition T1 : datetime := mk_datetime 1530628200000000 (Some (UTC, 0)).

Definition two_records : pyval :=
  VList [VDict [("datetime", VDatetime T0); ("value", VInt 100)];
         VDict [("datetime", VDatetime T1); ("value", VInt 110)]].

(** 2018-07-03 14:30:00 without a time zone, and a batch that has it next
    to an aware datetime. *)
Definition T1_naive : datetime := mk_datetime 1530628200000000 None.

Definition mixed_records : pyval :=
  VList [VDict [("datetime", VDatetime T0)];
         VDict [("datetime", VDatetime T1_naive)]].

(** 2018-10-28 02:30:00+02:00 and 2018-10-28 02:10:00+01:00, in one zone
    (object 2) that sets its clocks back in between: the second is forty
    minutes after the first. *)
Definition before_fold : datetime :=
  mk_datetime 1540693800000000 (Some (2%nat, 7200000000)).
Definition after_fold : datetime :=
  mk_datetime 1540692600000000 (Some (2%nat, 3600000000)).

(** 0001-01-01 00:00:00+02:00: an instant before the year 1. *)
Definition year_one : datetime := mk_datetime datetime_min (Some (1%nat, 7200000000)).

(** One good record and one whose datetime is a string. *)
Definition string_datetime : pyval :=
  VList [VDict [("datetime", VDatetime T0); ("value", VInt 100)];
         VDict [("datetime", VStr "2018-07-03T14:30:00"); ("value", VInt 110)]].

(** One good record and one without a datetime. *)
Definition missing_datetime : pyval :=
  VList [VDict [("datetime", VDatetime T0); ("value", VInt 100)];
         VDict [("value", VInt 110)]].

(** A record in which two key paths join to "a_b". *)
Definition clash : pyval :=
  VDict [("datetime", VDatetime T0); ("a", VDict [("b", VInt 1)]); ("a_b", VInt 2)].

Definition answers (res : pyval) : parser := fun _ _ => Ok res.

(** A registry with a capability per data type for the zone "AT". *)
Definition by_type : list (string * pyval) :=
  [("production", two_records);
   ("consumption", string_datetime);
   ("consumptionForecast", missing_datetime);
   ("generationForecast", clash);
   ("price", VDict [])].

Definition registry (data_type : string) : option (string -> option parser) :=
  match lookup data_type by_type with
  | Some res => Some (fun zone => if String.eqb zone "AT" then Some (answers res) else None)
  | None => None
  end.

Definition no_arrow : pyval -> result Arrow :=
  fun _ => Raise (OtherError "ParserError").

(** The clock starts at 2018-07-03 17:30:00 UTC and advances by a second
    per reading. *)
Definition ticking (n : nat) : Z := 1530639000000000 + Z.of_nat n * 1000000.

Definition accepting : list write_call -> DataFrame -> string -> option pyexn :=
  fun _ _ _ => None.

Definition w0 : world := mk_world 0 [] [].

Definition job (data_type : string) (target : pyval) : M pyval :=
  parse_to_influx registry no_arrow ticking accepting false "AT" data_type target.

(** A job function that fails, guarded with cancel-on-failure. *)
Definition unreachable_source : unit -> M pyval :=
  fun _ => lift_at Fetch (Raise (OtherError "ConnectionError")).

Definition fragile : Job :=
  mk_job 0 900000000 0 None (catch_exceptions ticking true unreachable_source tt).

Definition steady : Job :=
  mk_job 1 900000000 0 None (job "production" VNone).

Definition s0 : sched := mk_sched [fragile; steady] w0 [].

End Scenario.
Import Scenario.

(** * Properties *)

(** ** The series naming rule *)



(** ** The guard *)

Section Guard.

Variable clock : nat -> Z.
Variable Args : Type.

Implicit Types (job_func : Args -> M pyval) (w : world) (tb : traceback).

(** The world after the [except] branch: one more clock reading, one more
    line. *)
Definition after_except (w : world) (tb : traceback) : world :=
  mk_world (S (reads w)) (sink_calls w)
    (out w ++ [TracebackAt (clock (reads w)) tb])%list.

Lemma guard_returned job_func cancel args w v w' :
  job_func args w = (Returned v, w') ->
  catch_exceptions clock cancel job_func args w = (Returned v, w').
Proof.
  intros H. unfold catch_exceptions, try_except. rewrite H. reflexivity.
Qed.

Lemma guard_raised job_func cancel args w tb w' :
  job_func args w = (Raised tb, w') ->
  catch_exceptions clock cancel job_func args w
  = (Returned (if cancel then VCancelJob else VNone), after_except w' tb).
Proof.
  intros H. unfold catch_exceptions, try_except. rewrite H.
  destruct cancel; reflexivity.
Qed.

Lemma guard_total job_func cancel args w :
  exists v w', catch_exceptions clock cancel job_func args w = (Returned v, w').
Proof.
  destruct (job_func args w) as [[v | tb] w'] eqn:E.
  - exists v, w'. now apply guard_returned.
  - eexists _, _. apply guard_raised. exact E.
Qed.

(** C9.  The guard is return-transparent: when the wrapped function returns
    a value the guard returns that value (and leaves the world as the
    function left it); when the function raises under the default policy the
    guard returns [None], the value it also returns around a function that
    succeeds with [None]. *)
Theorem guard_return_transparent :
  forall job_func args w,
    (forall cancel v w',
        job_func args w = (Returned v, w') ->
        catch_exceptions clock cancel job_func args w = (Returned v, w'))
    /\ (forall tb w',
           job_func args w = (Raised tb, w') ->
           fst (catch_exceptions clock false job_func args w) = Returned VNone
           /\ fst (catch_exceptions clock false job_func args w)
              = fst (catch_exceptions clock false (fun _ => ret VNone) args w)).
Proof.
  intros job_func args w. split.
  - intros cancel v w' H. now apply guard_returned.
  - intros tb w' H. rewrite (guard_raised _ false _ _ _ _ H). split; reflexivity.
Qed.

End Guard.

(** ** Facts about the scheduler *)

Section SchedulerFacts.

Variable clock : nat -> Z.

Lemma store_job_ids j' js :
  map job_id (store_job j' js) = map job_id js.
Proof.
  induction js as [| j js IH]; simpl; [reflexivity |].
  rewrite IH. destruct (Nat.eqb_spec (job_id j) (job_id j')) as [E | _];
    [now rewrite E | reflexivity].
Qed.

Lemma store_job_absent j' js :
  ~ In (job_id j') (map job_id js) -> store_job j' js = js.
Proof.
  induction js as [| j js IH]; simpl; intros H; [reflexivity |].
  destruct (Nat.eqb_spec (job_id j) (job_id j')) as [E | _].
  - exfalso. apply H. now left.
  - f_equal. apply IH. intros Hin. apply H. now right.
Qed.

Lemma filter_absent id js :
  ~ In id (map job_id js) ->
  filter (fun j => negb (Nat.eqb (job_id j) id)) js = js.
Proof.
  induction js as [| j js IH]; simpl; intros H; [reflexivity |].
  destruct (Nat.eqb_spec (job_id j) id) as [E | _].
  - exfalso. apply H. now left.
  - simpl. f_equal. apply IH. intros Hin. apply H. now right.
Qed.

(** With identities that occur once, cancelling the stored job removes
    exactly the entries of that id and touches nothing else. *)
Lemma cancel_stored_job j' js :
  NoDup (map job_id js) ->
  cancel_job (job_id j') (store_job j' js)
  = filter (fun j => negb (Nat.eqb (job_id j) (job_id j'))) js.
Proof.
  induction js as [| j js IH]; simpl; intros Hnd; [reflexivity |].
  inversion Hnd as [| ? ? Hnotin Hnd']; subst.
  destruct (Nat.eqb_spec (job_id j) (job_id j')) as [E | NE]; simpl.
  - rewrite Nat.eqb_refl. rewrite E in Hnotin.
    rewrite (store_job_absent _ _ Hnotin). symmetry. now apply filter_absent.
  - destruct (Nat.eqb_spec (job_id j) (job_id j')); [contradiction |].
    f_equal. now apply IH.
Qed.

Lemma cancel_job_ids id js :
  incl (map job_id (cancel_job id js)) (map job_id js).
Proof.
  induction js as [| j js IH]; simpl; [apply incl_refl |].
  destruct (Nat.eqb (job_id j) id).
  - apply incl_tl, incl_refl.
  - apply incl_cons; [now left | now apply incl_tl].
Qed.

(** One run starts exactly one job, that of the given id, and registers no
    new job. *)
Lemma _run_job_trace job s o s' :
  _run_job clock job s = (o, s') ->
  ran s' = (ran s ++ [job_id job])%list
  /\ incl (map job_id (jobs s')) (map job_id (jobs s)).
Proof.
  unfold _run_job, Job_run, bind.
  destruct (job_func job (wld s)) as [[r | tb] w1]; simpl;
    intros H; inversion H; subst; clear H; simpl; split; try reflexivity;
    try apply incl_refl.
  destruct (is_CancelJob r).
  - eapply incl_tran; [apply cancel_job_ids |].
    rewrite store_job_ids. apply incl_refl.
  - rewrite store_job_ids. apply incl_refl.
Qed.

Lemma run_jobs_trace todo : forall s o s',
  run_jobs clock todo s = (o, s') ->
  exists extra,
    ran s' = (ran s ++ extra)%list
    /\ incl extra (map job_id todo)
    /\ incl (map job_id (jobs s')) (map job_id (jobs s)).
Proof.
  induction todo as [| job rest IH]; simpl; intros s o s' H.
  - inversion H; subst. exists []. rewrite app_nil_r.
    repeat split; try apply incl_refl.
  - destruct (_run_job clock job s) as [[[] | tb] s1] eqn:E;
      destruct (_run_job_trace _ _ _ _ E) as [Hran Hids].
    + destruct (IH _ _ _ H) as (extra & Hran' & Hsub & Hids').
      exists (job_id job :: extra). repeat split.
      * rewrite Hran', Hran, <- app_assoc. reflexivity.
      * apply incl_cons; [now left | now apply incl_tl].
      * eapply incl_tran; eassumption.
    + inversion H; subst. exists [job_id job]. repeat split; auto.
      apply incl_cons; [now left | apply incl_nil_l].
Qed.

Lemma runnable_jobs_incl js : forall n,
  incl (fst (runnable_jobs clock js n)) js.
Proof.
  induction js as [| j js IH]; simpl; intros n; [apply incl_refl |].
  specialize (IH (S n)).
  destruct (runnable_jobs clock js (S n)) as [rest n']; simpl in *.
  destruct (next_run j <=? clock n).
  - apply incl_cons; [now left | now apply incl_tl].
  - now apply incl_tl.
Qed.

Lemma insert_job_incl j sorted :
  incl (insert_job j sorted) (j :: sorted).
Proof.
  induction sorted as [| k rest IH]; simpl; [apply incl_refl |].
  destruct (next_run j <? next_run k); [apply incl_refl |].
  apply incl_cons; [right; now left |].
  eapply incl_tran; [exact IH |].
  intros x [<- | Hx]; [now left | right; now right].
Qed.

Lemma sorted_jobs_incl js : incl (sorted_jobs js) js.
Proof.
  unfold sorted_jobs.
  assert (G : forall acc, incl (fold_left (fun acc j => insert_job j acc) js acc)
                            (acc ++ js)%list).
  { induction js as [| j js IH]; simpl; intros acc.
    - rewrite app_nil_r. apply incl_refl.
    - eapply incl_tran; [apply IH |].
      intros x Hx. apply in_app_or in Hx. apply in_or_app.
      destruct Hx as [Hx | Hx]; [| right; now right].
      apply insert_job_incl in Hx. destruct Hx as [<- | Hx];
        [right; now left | now left]. }
  exact (G []).
Qed.

(** A pass of [run_pending] starts only jobs that are registered, and
    registers none. *)
Lemma run_pending_trace s o s' :
  run_pending clock s = (o, s') ->
  exists extra,
    ran s' = (ran s ++ extra)%list
    /\ incl extra (map job_id (jobs s))
    /\ incl (map job_id (jobs s')) (map job_id (jobs s)).
Proof.
  unfold run_pending.
  pose proof (runnable_jobs_incl (jobs s) (reads (wld s))) as Hsub.
  destruct (runnable_jobs clock (jobs s) (reads (wld s))) as [todo n].
  simpl in Hsub. intros H.
  destruct (run_jobs_trace _ _ _ _ H) as (extra & Hran & Hex & Hids).
  simpl in *. exists extra. repeat split; auto.
  eapply incl_tran; [exact Hex |].
  apply incl_map. eapply incl_tran; [apply sorted_jobs_incl | exact Hsub].
Qed.

(** However long the loop polls, it starts only jobs registered at its
    beginning. *)
Lemma polling_loop_trace n : forall s o s',
  polling_loop clock n s = (o, s') ->
  exists extra,
    ran s' = (ran s ++ extra)%list /\ incl extra (map job_id (jobs s)).
Proof.
  induction n as [| n IH]; simpl; intros s o s' H.
  - inversion H; subst. exists []. rewrite app_nil_r. split; [easy | apply incl_nil_l].
  - destruct (run_pending clock s) as [[[] | tb] s1] eqn:E;
      destruct (run_pending_trace _ _ _ E) as (e1 & Hran & Hsub & Hids).
    + destruct (IH _ _ _ H) as (e2 & Hran' & Hsub').
      exists (e1 ++ e2)%list. split.
      * rewrite Hran', Hran, app_assoc. reflexivity.
      * apply incl_app; [exact Hsub |]. eapply incl_tran; eassumption.
    + inversion H; subst. exists e1. split; assumption.
Qed.

(** A job function that returns from every world. *)
Definition never_raises (m : M pyval) : Prop :=
  forall w, exists v w', m w = (Returned v, w').

Definition all_guarded (js : list Job) : Prop :=
  Forall (fun j => never_raises (job_func j)) js.

Lemma store_job_guarded j' js :
  never_raises (job_func j') -> all_guarded js -> all_guarded (store_job j' js).
Proof.
  intros Hj. unfold all_guarded, store_job. induction 1 as [| j js Hx _ IH]; simpl;
    constructor; try exact IH.
  destruct (Nat.eqb (job_id j) (job_id j')); assumption.
Qed.

Lemma cancel_job_guarded id js : all_guarded js -> all_guarded (cancel_job id js).
Proof.
  unfold all_guarded. induction 1 as [| j js Hx Hjs IH]; simpl; [constructor |].
  destruct (Nat.eqb (job_id j) id); [exact Hjs | now constructor].
Qed.

Lemma _run_job_guarded job s :
  never_raises (job_func job) ->
  all_guarded (jobs s) ->
  exists s', _run_job clock job s = (Returned tt, s') /\ all_guarded (jobs s').
Proof.
  intros Hj Hs. destruct (Hj (wld s)) as (r & w' & E).
  unfold _run_job, Job_run, bind. rewrite E. simpl.
  eexists. split; [reflexivity |]. simpl.
  destruct (is_CancelJob r); [apply cancel_job_guarded |];
    now apply store_job_guarded.
Qed.

Lemma run_jobs_guarded todo : forall s,
  all_guarded todo ->
  all_guarded (jobs s) ->
  exists s', run_jobs clock todo s = (Returned tt, s') /\ all_guarded (jobs s').
Proof.
  induction todo as [| job rest IH]; intros s Htodo Hs; simpl.
  - now exists s.
  - inversion Htodo as [| ? ? Hjob Hrest]; subst.
    destruct (_run_job_guarded job s Hjob Hs) as (s1 & E & Hs1).
    rewrite E. now apply IH.
Qed.

Lemma all_guarded_incl js js' : incl js' js -> all_guarded js -> all_guarded js'.
Proof.
  unfold all_guarded. intros Hsub H. apply Forall_forall. intros j Hj.
  apply Hsub in Hj. revert j Hj. now apply Forall_forall.
Qed.

Lemma run_pending_guarded s :
  all_guarded (jobs s) ->
  exists s', run_pending clock s = (Returned tt, s') /\ all_guarded (jobs s').
Proof.
  intros Hs. unfold run_pending.
  pose proof (runnable_jobs_incl (jobs s) (reads (wld s))) as Hsub.
  destruct (runnable_jobs clock (jobs s) (reads (wld s))) as [todo n].
  simpl in Hsub. apply run_jobs_guarded; [| exact Hs].
  eapply all_guarded_incl; [| exact Hs].
  eapply incl_tran; [apply sorted_jobs_incl | exact Hsub].
Qed.

(** With guarded jobs only, the loop goes on for as many turns as one
    likes. *)
Lemma polling_loop_guarded n : forall s,
  all_guarded (jobs s) ->
  exists s', polling_loop clock n s = (Returned tt, s') /\ all_guarded (jobs s').
Proof.
  induction n as [| n IH]; intros s Hs; simpl.
  - now exists s.
  - destruct (run_pending_guarded s Hs) as (s1 & E & Hs1). rewrite E. now apply IH.
Qed.

Lemma every_do_guarded per f s :
  never_raises f -> all_guarded (jobs s) -> all_guarded (jobs (every_do clock per f s)).
Proof.
  intros Hf Hs. unfold every_do, all_guarded. simpl.
  apply Forall_app. split; [exact Hs | now repeat constructor].
Qed.

End SchedulerFacts.

(** ** Facts about one run of the job *)

Lemma bind_returned {A B} (m : M A) (k : A -> M B) w b w' :
  bind m k w = (Returned b, w') ->
  exists a w1, m w = (Returned a, w1) /\ k a w1 = (Returned b, w').
Proof.
  unfold bind. destruct (m w) as [[a | tb] w1]; intros H; [| discriminate].
  now exists a, w1.
Qed.

Lemma bind_raised {A B} (m : M A) (k : A -> M B) w tb w' :
  bind m k w = (Raised tb, w') ->
  m w = (Raised tb, w')
  \/ exists a w1, m w = (Returned a, w1) /\ k a w1 = (Raised tb, w').
Proof.
  unfold bind. destruct (m w) as [[a | tb1] w1]; intros H.
  - right. now exists a, w1.
  - left. inversion H; subst. reflexivity.
Qed.

Lemma lift_at_raised {A} s (r : result A) w tb w' :
  lift_at s r w = (Raised tb, w') ->
  w' = w /\ tb_stage tb = s /\ r = Raise (tb_exn tb).
Proof.
  unfold lift_at. destruct r; intros H; inversion H; subst; auto.
Qed.

Lemma lift_at_returned {A} s (r : result A) w a w' :
  lift_at s r w = (Returned a, w') -> w' = w /\ r = Ok a.
Proof.
  unfold lift_at. destruct r; intros H; inversion H; subst; auto.
Qed.

(** Case analysis on the next scrutinee of a monadic term. *)
Ltac next_case :=
  match goal with
  | |- context [match ?x with _ => _ end] =>
      first [ is_var x; destruct x | destruct x eqn:?E ]
  end.

(** A computation is quiet when it neither writes to the sink nor prints. *)
Definition quiet {A} (m : M A) : Prop :=
  forall w o w', m w = (o, w') -> sink_calls w' = sink_calls w /\ out w' = out w.

Lemma quiet_ret {A} (a : A) : quiet (ret a).
Proof. intros w o w' H. inversion H; subst. auto. Qed.

Lemma quiet_lift_at {A} s (r : result A) : quiet (lift_at s r).
Proof. intros w o w' H. unfold lift_at in H. destruct r; inversion H; subst; auto. Qed.

Lemma quiet_read_clock clock : quiet (read_clock clock).
Proof. intros w o w' H. inversion H; subst. auto. Qed.

Lemma quiet_bind {A B} (m : M A) (k : A -> M B) :
  quiet m -> (forall a, quiet (k a)) -> quiet (bind m k).
Proof.
  intros Hm Hk w o w' H. unfold bind in H.
  destruct (m w) as [[a | tb] w1] eqn:E; destruct (Hm _ _ _ E) as [Hs Ho].
  - destruct (Hk a _ _ _ H) as [Hs' Ho']. split; congruence.
  - inversion H; subst. auto.
Qed.

Section JobFacts.

Variable PARSER_KEY_TO_DICT : string -> option (string -> option parser).
Variable arrow_parse : pyval -> result Arrow.
Variable clock : nat -> Z.
Variable sink_answer : list write_call -> DataFrame -> string -> option pyexn.
Variable verbose : bool.

Local Abbreviation fetch := (fetch PARSER_KEY_TO_DICT arrow_parse clock).
Local Abbreviation process := (process clock sink_answer verbose).
Local Abbreviation body :=
  (parse_to_influx_body PARSER_KEY_TO_DICT arrow_parse clock sink_answer verbose).
Local Abbreviation run :=
  (parse_to_influx PARSER_KEY_TO_DICT arrow_parse clock sink_answer verbose).

(** Every [return] of the body is a bare one. *)
Lemma process_returns_None zone data_type target start res w v w' :
  process zone data_type target start res w = (Returned v, w') -> v = VNone.
Proof.
  unfold process, assess, bind, lift_at, write_points, read_clock, print, ret.
  repeat (next_case; simpl); intros H; inversion H; reflexivity.
Qed.

Lemma body_returns_None zone data_type target w v w' :
  body zone data_type target w = (Returned v, w') -> v = VNone.
Proof.
  unfold parse_to_influx_body. intros H.
  apply bind_returned in H. destruct H as ([[t start] res] & w1 & _ & H).
  destruct (truthy res); simpl in H.
  - now apply process_returns_None in H.
  - unfold bind, print, ret in H. simpl in H. now inversion H.
Qed.

(** The decorated job returns, and what it returns is [None]. *)
Lemma run_returns_None zone data_type target w :
  exists w', run zone data_type target w = (Returned VNone, w').
Proof.
  unfold parse_to_influx.
  destruct (body zone data_type target w) as [[v | tb] w1] eqn:E.
  - exists w1. rewrite (body_returns_None _ _ _ _ _ _ E) in E.
    exact (guard_returned clock _
             (fun '(zone, data_type, target_datetime) =>
                body zone data_type target_datetime)
             false (zone, data_type, target) w VNone w1 E).
  - eexists.
    exact (guard_raised clock _
             (fun '(zone, data_type, target_datetime) =>
                body zone data_type target_datetime)
             false (zone, data_type, target) w tb w1 E).
Qed.

End JobFacts.

(** ** The guard under the scheduler *)

(** The job object after a run that ended in world [w]: [last_run] is the
    next clock reading, [next_run] one period after the reading after
    that. *)
Definition rescheduled (clock : nat -> Z) (job : Job) (w : world) : Job :=
  mk_job (job_id job) (period job) (clock (S (reads w)) + period job)
    (Some (clock (reads w))) (job_func job).

Section Isolation.

Variable PARSER_KEY_TO_DICT : string -> option (string -> option parser).
Variable arrow_parse : pyval -> result Arrow.
Variable clock : nat -> Z.
Variable sink_answer : list write_call -> DataFrame -> string -> option pyexn.
Variable verbose : bool.
Variable Args : Type.

Local Abbreviation body :=
  (parse_to_influx_body PARSER_KEY_TO_DICT arrow_parse clock sink_answer verbose).
Local Abbreviation run :=
  (parse_to_influx PARSER_KEY_TO_DICT arrow_parse clock sink_answer verbose).
Local Abbreviation guard := (catch_exceptions clock).

Lemma run_job_returned job s r w' :
  job_func job (wld s) = (Returned r, w') ->
  _run_job clock job s
  = (Returned tt,
     mk_sched
       (if is_CancelJob r
        then cancel_job (job_id job) (store_job (rescheduled clock job w') (jobs s))
        else store_job (rescheduled clock job w') (jobs s))
       (mk_world (S (S (reads w'))) (sink_calls w') (out w'))
       (ran s ++ [job_id job])%list).
Proof.
  intros E. unfold _run_job, Job_run, bind. rewrite E. reflexivity.
Qed.

Lemma run_never_raises zone data_type target :
  never_raises (run zone data_type target).
Proof.
  intros w.
  destruct (run_returns_None PARSER_KEY_TO_DICT arrow_parse clock sink_answer verbose
              zone data_type target w) as (w' & E).
  now exists VNone, w'.
Qed.

Lemma register_jobs_guarded s :
  all_guarded (jobs s) ->
  all_guarded
    (jobs (register_jobs PARSER_KEY_TO_DICT arrow_parse clock sink_answer verbose s)).
Proof.
  intros Hs. unfold register_jobs, exchange_zones. cbn [fold_left].
  repeat (apply every_do_guarded; [apply run_never_raises |]). exact Hs.
Qed.

(** The program registers guarded jobs only, so its loop never ends in an
    exception. *)
Lemma main_keeps_polling turns w :
  exists s,
    main PARSER_KEY_TO_DICT arrow_parse clock sink_answer verbose turns w
    = (Returned tt, s).
Proof.
  unfold main, run_all.
  pose proof (register_jobs_guarded (mk_sched [] w []) (Forall_nil _)) as G.
  destruct (run_jobs_guarded clock _ _ G G) as (s1 & E & G1). rewrite E.
  destruct (polling_loop_guarded clock turns s1 G1) as (s2 & L & _).
  now exists s2.
Qed.

(** C1.  No exception escapes a guarded call: the call always returns; an
    exception raised by the wrapped function, at whatever stage, is caught
    and the time and the traceback are printed; under the default policy the
    value returned is [None], so that the scheduler keeps the job's entry
    and reschedules it one period later.  In particular the decorated
    [parse_to_influx] returns [None] from every world, and prints the
    traceback of whatever its body raised; and the program's loop, whose
    jobs are all guarded, goes on for any number of turns. *)
Theorem guard_absorbs_every_exception :
  forall (f : Args -> M pyval) (cancel : bool) (args : Args) (w : world),
    (exists v w', guard cancel f args w = (Returned v, w'))
    /\ (forall tb w1,
           f args w = (Raised tb, w1) ->
           guard cancel f args w
           = (Returned (if cancel then VCancelJob else VNone),
              mk_world (S (reads w1)) (sink_calls w1)
                (out w1 ++ [TracebackAt (clock (reads w1)) tb])%list)
           /\ forall job js started,
                job_func job = guard false f args ->
                exists w',
                  _run_job clock job (mk_sched js w started)
                  = (Returned tt,
                     mk_sched (store_job (rescheduled clock job w') js)
                       (mk_world (S (S (reads w'))) (sink_calls w') (out w'))
                       (started ++ [job_id job])%list)
                  /\ map job_id (store_job (rescheduled clock job w') js)
                     = map job_id js)
    /\ (forall zone data_type target,
           (exists w', run zone data_type target w = (Returned VNone, w'))
           /\ forall tb w1,
                body zone data_type target w = (Raised tb, w1) ->
                run zone data_type target w
                = (Returned VNone,
                   mk_world (S (reads w1)) (sink_calls w1)
                     (out w1 ++ [TracebackAt (clock (reads w1)) tb])%list))
    /\ (forall turns,
           exists s,
             main PARSER_KEY_TO_DICT arrow_parse clock sink_answer verbose turns w
             = (Returned tt, s)).
Proof.
  intros f cancel args w. split; [apply guard_total |]. split.
  - intros tb w1 E. split; [exact (guard_raised clock Args f cancel args w tb w1 E) |].
    intros job js started Hf.
    pose proof (guard_raised clock Args f false args w tb w1 E) as G.
    exists (after_except clock w1 tb). split.
    + rewrite (run_job_returned job (mk_sched js w started) VNone
                 (after_except clock w1 tb));
        [reflexivity | rewrite Hf; exact G].
    + apply store_job_ids.
  - split; [| intros turns; apply main_keeps_polling].
    intros zone data_type target. split; [apply run_returns_None |].
    intros tb w1 E. unfold parse_to_influx.
    exact (guard_raised clock _
             (fun '(zone, data_type, target_datetime) =>
                body zone data_type target_datetime)
             false (zone, data_type, target) w tb w1 E).
Qed.

(** C6.  With cancel-on-failure set, a run that raises makes the guard
    return [schedule.CancelJob]; the scheduler then drops the entry of that
    job and of no other (the other entries are left as they were), and
    neither the rest of the pass nor any later turn of the polling loop
    starts that job again.
    With the policy off, the value returned for a failing run is [None], not
    the sentinel. *)
Theorem cancel_on_failure_disables_the_job :
  forall (f : Args -> M pyval) (args : Args) (job : Job) (s : sched) tb w1,
    job_func job = guard true f args ->
    f args (wld s) = (Raised tb, w1) ->
    NoDup (map job_id (jobs s)) ->
    fst (guard true f args (wld s)) = Returned VCancelJob
    /\ (exists s',
           _run_job clock job s = (Returned tt, s')
           /\ jobs s' = filter (fun j => negb (Nat.eqb (job_id j) (job_id job))) (jobs s)
           /\ forall rest o1 s1 n o s'',
                ~ In (job_id job) (map job_id rest) ->
                run_jobs clock rest s' = (o1, s1) ->
                polling_loop clock n s1 = (o, s'') ->
                exists later,
                  ran s'' = (ran s' ++ later)%list /\ ~ In (job_id job) later)
    /\ fst (guard false f args (wld s)) = Returned VNone
    /\ is_CancelJob VNone = false.
Proof.
  intros f args job s tb w1 Hf E Hnd.
  pose proof (guard_raised clock Args f true args (wld s) tb w1 E) as G.
  split; [now rewrite G |]. split; [| split; [| reflexivity]].
  - eexists. split; [| split].
    + apply run_job_returned. rewrite Hf. exact G.
    + simpl. exact (cancel_stored_job (rescheduled clock job _) (jobs s) Hnd).
    + intros rest o1 s1 n o s'' Hrest R L.
      destruct (run_jobs_trace clock rest _ _ _ R) as (e1 & Hran1 & Hsub1 & Hids).
      destruct (polling_loop_trace clock n _ _ _ L) as (e2 & Hran2 & Hsub2).
      exists (e1 ++ e2)%list. split; [rewrite Hran2, Hran1; apply eq_sym, app_assoc |].
      intros Hin. apply in_app_or in Hin. destruct Hin as [Hin | Hin].
      { apply Hrest. now apply Hsub1. }
      apply Hsub2, Hids in Hin. simpl in Hin.
      change (job_id job) with (job_id (rescheduled clock job (after_except clock w1 tb))) in Hin.
      rewrite cancel_stored_job in Hin by exact Hnd.
      apply in_map_iff in Hin. destruct Hin as (j & Hid & Hj).
      apply filter_In in Hj. destruct Hj as [_ Hj]. simpl in Hj.
      rewrite Hid, Nat.eqb_refl in Hj. discriminate.
  - now rewrite (guard_raised clock Args f false args (wld s) tb w1 E).
Qed.

End Isolation.

(** ** Flattening *)

Module FlattenFacts.

Definition is_dict (v : pyval) : bool :=
  match v with VDict _ => true | _ => false end.

(** Induction on values that goes under the items of a mapping (lists and
    tuples are leaves for [flatten]). *)
Section MappingInduction.

Variable P : pyval -> Prop.
Hypothesis leaf : forall v, is_dict v = false -> P v.
Hypothesis node : forall d, Forall (fun kv => P (snd kv)) d -> P (VDict d).

Fixpoint mapping_ind (v : pyval) : P v :=
  match v with
  | VDict d =>
      node d
        ((fix items (d : list (string * pyval)) : Forall (fun kv => P (snd kv)) d :=
            match d with
            | [] => Forall_nil _
            | (k, x) :: d' => Forall_cons (k, x) (mapping_ind x) (items d')
            end) d)
  | v' => leaf v' eq_refl
  end.

End MappingInduction.

(** The leaves of a value with their key paths joined by underscores, in
    the order of the walk. *)
Fixpoint leaves_value (flat_key : string) (value : pyval) : FlatRow :=
  match value with
  | VDict d =>
      (fix go (d : list (string * pyval)) : FlatRow :=
         match d with
         | [] => []
         | (key, v) :: d' =>
             (leaves_value (underscore_reducer (Some flat_key) key) v ++ go d')%list
         end) d
  | _ => [(flat_key, value)]
  end.

Fixpoint leaves (d : list (string * pyval)) (parent : option string) : FlatRow :=
  match d with
  | [] => []
  | (key, value) :: d' =>
      (leaves_value (underscore_reducer parent key) value ++ leaves d' parent)%list
  end.

Lemma leaves_value_dict k d : leaves_value k (VDict d) = leaves d (Some k).
Proof. induction d as [| [key v] d IH]; simpl in *; [reflexivity | now rewrite IH]. Qed.

Lemma flatten_value_dict k d fd : flatten_value k (VDict d) fd = _flatten d (Some k) fd.
Proof.
  revert fd. induction d as [| [key v] d IH]; intros fd; simpl in *; [reflexivity |].
  match goal with
  | |- context [flatten_value ?a ?b ?c] => destruct (flatten_value a b c) as [fd' | e]
  end; [exact (IH fd') | reflexivity].
Qed.

(** Storing items one by one into [flat_dict], refusing a key that is
    already there. *)
Fixpoint insert_all (items flat_dict : FlatRow) : result FlatRow :=
  match items with
  | [] => Ok flat_dict
  | (k, v) :: rest =>
      if has_key k flat_dict then Raise ValueError
      else insert_all rest (flat_dict ++ [(k, v)])%list
  end.

Lemma insert_all_app a b : forall fd,
  insert_all (a ++ b)%list fd
  = match insert_all a fd with
    | Ok fd' => insert_all b fd'
    | Raise e => Raise e
    end.
Proof.
  induction a as [| [k v] a IH]; intros fd; simpl; [reflexivity |].
  destruct (has_key k fd); [reflexivity | apply IH].
Qed.

Lemma _flatten_items d parent :
  Forall (fun kv => forall k fd,
              flatten_value k (snd kv) fd = insert_all (leaves_value k (snd kv)) fd) d ->
  forall fd, _flatten d parent fd = insert_all (leaves d parent) fd.
Proof.
  induction 1 as [| [key v] d Hv _ IH]; intros fd; simpl in *; [reflexivity |].
  rewrite insert_all_app, Hv.
  destruct (insert_all _ fd); [apply IH | reflexivity].
Qed.

(** The walk of the library stores exactly the leaves, one by one. *)
Lemma flatten_value_leaves v :
  forall k fd, flatten_value k v fd = insert_all (leaves_value k v) fd.
Proof.
  induction v as [v Hv | d IH] using mapping_ind; intros k fd.
  - destruct v; try discriminate; reflexivity.
  - rewrite flatten_value_dict, leaves_value_dict. now apply _flatten_items.
Qed.

Lemma _flatten_leaves d parent fd :
  _flatten d parent fd = insert_all (leaves d parent) fd.
Proof.
  apply _flatten_items. apply Forall_forall. intros kv _ k fd'.
  apply flatten_value_leaves.
Qed.

(** No key occurs twice. *)
Fixpoint distinct (keys : list string) : bool :=
  match keys with
  | [] => true
  | k :: rest => negb (str_in k rest) && distinct rest
  end.

Lemma lookup_app k (a b : FlatRow) :
  lookup k (a ++ b)%list
  = match lookup k a with Some v => Some v | None => lookup k b end.
Proof.
  induction a as [| [k' v] a IH]; simpl; [reflexivity |].
  destruct (String.eqb k k'); [reflexivity | exact IH].
Qed.

Lemma has_key_str_in k (fd : FlatRow) : has_key k fd = str_in k (map fst fd).
Proof.
  unfold has_key, str_in. induction fd as [| [k' v] fd IH]; simpl; [reflexivity |].
  destruct (String.eqb k k'); [reflexivity | exact IH].
Qed.

Lemma str_in_app k a b : str_in k (a ++ b)%list = str_in k a || str_in k b.
Proof. unfold str_in. apply existsb_app. Qed.

Lemma distinct_app_cons a k b :
  distinct (a ++ k :: b)%list = true ->
  str_in k a = false /\ distinct ((a ++ [k]) ++ b)%list = true.
Proof.
  induction a as [| x a IH]; simpl; intros H.
  - split; [reflexivity | exact H].
  - apply andb_prop in H. destruct H as [Hx Hd].
    destruct (IH Hd) as [Hk Hd']. rewrite Hd', andb_true_r.
    rewrite <- app_assoc. simpl. rewrite Hx. split; [| reflexivity].
    rewrite str_in_app in Hx. simpl in Hx.
    apply negb_true_iff, orb_false_elim in Hx. destruct Hx as [_ Hx].
    apply orb_false_elim in Hx. destruct Hx as [Hx _].
    rewrite Hk, orb_false_r. rewrite String.eqb_sym. exact Hx.
Qed.

(** Keys that are pairwise distinct are all stored. *)
Lemma insert_all_distinct items : forall fd,
  distinct (map fst fd ++ map fst items)%list = true ->
  insert_all items fd = Ok (fd ++ items)%list.
Proof.
  induction items as [| [k v] items IH]; intros fd H; simpl in *.
  - now rewrite app_nil_r.
  - apply distinct_app_cons in H. destruct H as [Hk Hd].
    rewrite has_key_str_in, Hk.
    rewrite (IH (fd ++ [(k, v)])%list).
    + now rewrite <- app_assoc.
    + rewrite map_app. exact Hd.
Qed.

(** A key that comes twice is refused. *)
Lemma insert_all_duplicate items : forall fd,
  distinct (map fst fd ++ map fst items)%list = false ->
  distinct (map fst fd) = true ->
  insert_all items fd = Raise ValueError.
Proof.
  induction items as [| [k v] items IH]; intros fd H Hfd; simpl in *.
  - rewrite app_nil_r in H. congruence.
  - rewrite has_key_str_in. destruct (str_in k (map fst fd)) eqn:Hk; [reflexivity |].
    apply IH.
    + rewrite map_app, <- app_assoc. exact H.
    + rewrite map_app. simpl.
      clear - Hfd Hk. induction (map fst fd) as [| x l IHl]; simpl in *; [reflexivity |].
      apply andb_prop in Hfd. destruct Hfd as [Hx Hd].
      apply orb_false_elim in Hk. destruct Hk as [Hkx Hk].
      rewrite (IHl Hd Hk), andb_true_r, str_in_app. simpl.
      apply negb_true_iff in Hx. rewrite Hx, orb_false_r. simpl.
      rewrite String.eqb_sym, Hkx. reflexivity.
Qed.

(** [flatten] succeeds exactly on the mappings whose joined key paths are
    pairwise distinct, and then returns the leaves. *)
Lemma flatten_distinct d :
  flatten (VDict d)
  = if distinct (map fst (leaves d None)) then Ok (leaves d None) else Raise ValueError.
Proof.
  unfold flatten. rewrite _flatten_leaves.
  destruct (distinct (map fst (leaves d None))) eqn:E.
  - now apply (insert_all_distinct _ []).
  - now apply (insert_all_duplicate _ []).
Qed.

End FlattenFacts.
Import FlattenFacts.

(** ** Normalization *)

Module NormalizeFacts.

(** A row is flat when none of its values is a mapping. *)
Definition flat_row (row : FlatRow) : Prop :=
  Forall (fun kv => is_dict (snd kv) = false) row.

Lemma leaves_flat_items d parent :
  Forall (fun kv => forall k, flat_row (leaves_value k (snd kv))) d ->
  flat_row (leaves d parent).
Proof.
  induction 1 as [| [key v] d Hv _ IH]; simpl; [constructor |].
  apply Forall_app. split; [apply Hv | exact IH].
Qed.

Lemma leaves_value_flat v : forall k, flat_row (leaves_value k v).
Proof.
  induction v as [v Hv | d IH] using mapping_ind; intros k.
  - destruct v; try discriminate; repeat constructor.
  - rewrite leaves_value_dict. now apply leaves_flat_items.
Qed.

Lemma leaves_flat d parent : flat_row (leaves d parent).
Proof.
  apply leaves_flat_items. apply Forall_forall. intros kv _ k.
  apply leaves_value_flat.
Qed.

Fixpoint has_underscore (s : string) : bool :=
  match s with
  | EmptyString => false
  | String c rest => Ascii.eqb c "_" || has_underscore rest
  end.

Lemma has_underscore_join a b : has_underscore (a ++ "_" ++ b) = true.
Proof.
  induction a as [| c a IH]; simpl in *; [reflexivity |].
  rewrite IH. apply orb_true_r.
Qed.

(** A joined key carries an underscore; the key "datetime" has none. *)
Lemma joined_keys_items d k :
  Forall (fun kv => forall k', has_underscore k' = true ->
              Forall (fun it => has_underscore (fst it) = true)
                (leaves_value k' (snd kv))) d ->
  Forall (fun it => has_underscore (fst it) = true) (leaves d (Some k)).
Proof.
  induction 1 as [| [key v] d Hv _ IH]; simpl; [constructor |].
  apply Forall_app. split; [| exact IH].
  apply Hv. apply has_underscore_join.
Qed.

Lemma joined_keys_value v : forall k,
  has_underscore k = true ->
  Forall (fun it => has_underscore (fst it) = true) (leaves_value k v).
Proof.
  induction v as [v Hv | d IH] using mapping_ind; intros k Hk.
  - destruct v; try discriminate; repeat constructor; exact Hk.
  - rewrite leaves_value_dict. now apply joined_keys_items.
Qed.

Lemma lookup_cons k k' v (row : FlatRow) :
  lookup k ((k', v) :: row) = if String.eqb k k' then Some v else lookup k row.
Proof. reflexivity. Qed.

Lemma lookup_absent k (row : FlatRow) :
  Forall (fun it => fst it <> k) row -> lookup k row = None.
Proof.
  induction 1 as [| [k' v] row Hk _ IH]; simpl; [reflexivity |].
  destruct (String.eqb_spec k k') as [-> | _]; [now elim Hk | exact IH].
Qed.

(** Under a top-level key other than "datetime" no leaf is stored as
    "datetime". *)
Lemma no_datetime_below key v :
  key <> "datetime" -> lookup "datetime" (leaves_value key v) = None.
Proof.
  intros Hkey. apply lookup_absent.
  destruct v as [| | | | | items | | |];
    try (simpl; constructor; [exact Hkey | constructor]).
  rewrite leaves_value_dict.
  assert (H : Forall (fun it => has_underscore (fst it) = true) (leaves items (Some key))).
  { apply joined_keys_items. apply Forall_forall. intros kv _ k' Hk'.
    now apply joined_keys_value. }
  eapply Forall_impl; [| exact H]. intros it Hit E. cbv beta in Hit.
  rewrite E in Hit. discriminate.
Qed.

(** Flattening keeps a record's native [datetime] under the key
    "datetime". *)
Lemma datetime_preserved d dt :
  lookup "datetime" d = Some (VDatetime dt) ->
  lookup "datetime" (leaves d None) = Some (VDatetime dt).
Proof.
  induction d as [| [key v] d IH]; [discriminate |].
  change (leaves ((key, v) :: d) None)
    with (leaves_value key v ++ leaves d None)%list.
  rewrite lookup_app, lookup_cons.
  destruct (String.eqb_spec "datetime" key) as [<- | NE].
  - intros H. inversion H; subst. reflexivity.
  - intros H. rewrite no_datetime_below by congruence. now apply IH.
Qed.

(** A record with a native datetime: a mapping whose "datetime" is a
    [datetime.datetime]. *)
Definition has_native_datetime (e : pyval) : bool :=
  match getitem e "datetime" with
  | Ok v => is_native_datetime v
  | Raise _ => false
  end.

(** The key paths of a record join to pairwise distinct keys. *)
Definition distinct_paths (e : pyval) : bool :=
  match e with
  | VDict d => distinct (map fst (leaves d None))
  | _ => true
  end.

(** The flat row of a record. *)
Definition leaves_of (e : pyval) : FlatRow :=
  match e with
  | VDict d => leaves d None
  | _ => []
  end.

Lemma native_record e :
  has_native_datetime e = true ->
  exists d dt, e = VDict d /\ lookup "datetime" d = Some (VDatetime dt).
Proof.
  unfold has_native_datetime, getitem. destruct e; try discriminate.
  destruct (lookup "datetime" items) as [[] |] eqn:E; try discriminate.
  intros _. now exists items, d.
Qed.

Lemma datetimes_of_native l :
  forallb has_native_datetime l = true ->
  exists dts,
    datetimes_of l = Ok dts
    /\ forallb is_native_datetime dts = true
    /\ length (native_values dts) = length l.
Proof.
  induction l as [| e l IH]; simpl; intros H.
  - exists []. auto.
  - apply andb_prop in H. destruct H as [He Hl].
    destruct (IH Hl) as (dts & E & Hn & Hlen).
    unfold has_native_datetime in He.
    destruct (getitem e "datetime") as [v |]; [| discriminate].
    rewrite E. exists (v :: dts). split; [reflexivity |]. simpl. rewrite He, Hn.
    split; [reflexivity |]. destruct v; try discriminate. simpl. now rewrite Hlen.
Qed.

Lemma flatten_all_distinct l :
  forallb has_native_datetime l = true ->
  forallb distinct_paths l = true ->
  flatten_all l = Ok (map leaves_of l).
Proof.
  induction l as [| e l IH]; simpl; intros Hn Hd; [reflexivity |].
  apply andb_prop in Hn. destruct Hn as [He Hl].
  apply andb_prop in Hd. destruct Hd as [Hde Hdl].
  destruct (native_record _ He) as (d & dt & -> & _).
  rewrite flatten_distinct. simpl in Hde. rewrite Hde.
  now rewrite (IH Hl Hdl).
Qed.

End NormalizeFacts.
Import NormalizeFacts.

(** C3, as the code has it.  For every fetch result (a single record or a
    sequence) in which every record is a mapping with a native [datetime]
    and no record has two key paths that join to the same key,
    normalization produces a batch with one row per record; each row holds
    the record's leaves under their underscore-joined paths, none of its
    values is a mapping, and its "datetime" is the record's.  The record
    with "breakdown" over "coal": 10 flattens to "breakdown_coal": 10. *)
Theorem normalize_valid_batch :
  forall res,
    forallb has_native_datetime (to_res_list res) = true ->
    forallb distinct_paths (to_res_list res) = true ->
    exists dts rows,
      normalize res = Ok (Batch dts rows (pd_DataFrame rows))
      /\ rows = map leaves_of (to_res_list res)
      /\ length rows = length (to_res_list res)
      /\ length (df_rows (pd_DataFrame rows)) = length (to_res_list res)
      /\ Forall flat_row rows
      /\ Forall2 (fun e row => exists dt,
                      getitem e "datetime" = Ok (VDatetime dt)
                      /\ lookup "datetime" row = Some (VDatetime dt))
           (to_res_list res) rows
      /\ flatten (VDict [("breakdown", VDict [("coal", VInt 10)])])
         = Ok [("breakdown_coal", VInt 10)].
Proof.
  intros res Hn Hd. unfold normalize.
  destruct (datetimes_of_native _ Hn) as (dts & E & Hnat & _).
  rewrite E, Hnat, (flatten_all_distinct _ Hn Hd).
  exists dts, (map leaves_of (to_res_list res)).
  split; [reflexivity |]. split; [reflexivity |].
  split; [apply length_map |]. split; [simpl; now rewrite !length_map |].
  split; [| split; [| reflexivity]].
  - apply Forall_map. apply Forall_forall. intros e _.
    destruct e; simpl; try constructor. apply leaves_flat.
  - clear E Hd. induction (to_res_list res) as [| e l IH]; simpl in *; constructor.
    + apply andb_prop in Hn. destruct Hn as [He _].
      destruct (native_record _ He) as (d & dt & -> & Hdt).
      exists dt. simpl. rewrite Hdt. split; [reflexivity |].
      now apply datetime_preserved.
    + apply IH. apply andb_prop in Hn. tauto.
Qed.

(** ** Empty results and malformed batches *)

(** A record that lacks "datetime" (or cannot be subscripted), or whose
    "datetime" is not a [datetime.datetime]. *)
Definition malformed (e : pyval) : bool :=
  match getitem e "datetime" with
  | Ok v => negb (is_native_datetime v)
  | Raise _ => true
  end.

Definition has_malformed (res : pyval) : bool :=
  existsb malformed (to_res_list res).

(** Some record has no "datetime" to read: line 96 raises. *)
Definition lacks_datetime (res : pyval) : bool :=
  match datetimes_of (to_res_list res) with
  | Raise _ => true
  | Ok _ => false
  end.

(** The two ways a run reports a batch it rejects for its datetimes: the
    message of line 98, or the traceback of the assertion of line 104. *)
Definition reports_schema_failure (res : pyval) (lines : list line) : Prop :=
  In (LacksDatetime res) lines
  \/ exists stamp, In (TracebackAt stamp (mk_tb Normalize AssertionError)) lines.

Lemma malformed_not_native l : forall dts,
  datetimes_of l = Ok dts ->
  existsb malformed l = true ->
  forallb is_native_datetime dts = false.
Proof.
  induction l as [| e l IH]; simpl; intros dts E H; [discriminate |].
  unfold malformed in H.
  destruct (getitem e "datetime") as [v |]; [| discriminate].
  destruct (datetimes_of l) as [vs |]; [| discriminate].
  inversion E; subst. simpl.
  destruct (is_native_datetime v); simpl in *; [| reflexivity].
  now apply IH.
Qed.

Lemma normalize_malformed res :
  has_malformed res = true ->
  normalize res = if lacks_datetime res then Ok MissingDatetime else Raise AssertionError.
Proof.
  unfold has_malformed, normalize, lacks_datetime. intros H.
  destruct (datetimes_of (to_res_list res)) as [dts |] eqn:E; [| reflexivity].
  now rewrite (malformed_not_native _ _ E H).
Qed.

Section RunFacts.

Variable PARSER_KEY_TO_DICT : string -> option (string -> option parser).
Variable arrow_parse : pyval -> result Arrow.
Variable clock : nat -> Z.
Variable sink_answer : list write_call -> DataFrame -> string -> option pyexn.
Variable verbose : bool.

Local Abbreviation fetch := (fetch PARSER_KEY_TO_DICT arrow_parse clock).
Local Abbreviation process := (process clock sink_answer verbose).
Local Abbreviation body :=
  (parse_to_influx_body PARSER_KEY_TO_DICT arrow_parse clock sink_answer verbose).
Local Abbreviation run :=
  (parse_to_influx PARSER_KEY_TO_DICT arrow_parse clock sink_answer verbose).

(** Fetching writes nothing and prints nothing. *)
Lemma fetch_frame zone data_type target w o w1 :
  fetch zone data_type target w = (o, w1) ->
  sink_calls w1 = sink_calls w /\ out w1 = out w.
Proof.
  apply quiet_bind.
  - destruct (truthy target); [| apply quiet_ret].
    apply quiet_bind; [apply quiet_lift_at | intros a; apply quiet_ret].
  - intros t. apply quiet_bind; [apply quiet_read_clock |].
    intros start. apply quiet_bind; [apply quiet_lift_at |].
    intros p. apply quiet_bind; [apply quiet_lift_at | intros res; apply quiet_ret].
Qed.

Lemma run_of_body zone data_type target w :
  run zone data_type target w
  = match body zone data_type target w with
    | (Returned v, w') => (Returned v, w')
    | (Raised tb, w') => (Returned VNone, after_except clock w' tb)
    end.
Proof.
  unfold parse_to_influx, catch_exceptions, try_except.
  destruct (body zone data_type target w) as [[v | tb] w']; reflexivity.
Qed.

Lemma body_unfold zone data_type target w :
  body zone data_type target w
  = match fetch zone data_type target w with
    | (Returned (t, start, res), w1) =>
        if truthy res then process zone data_type t start res w1
        else (Returned VNone,
              mk_world (reads w1) (sink_calls w1)
                (out w1 ++ [ParserReturnedNothing res])%list)
    | (Raised tb, w1) => (Raised tb, w1)
    end.
Proof.
  unfold parse_to_influx_body, bind at 1.
  destruct (fetch zone data_type target w) as [[[[t start] res] | tb] w1];
    [destruct (truthy res) |]; reflexivity.
Qed.

Lemma body_after_fetch zone data_type target w t start res w1 :
  fetch zone data_type target w = (Returned (t, start, res), w1) ->
  body zone data_type target w
  = if truthy res then process zone data_type t start res w1
    else (Returned VNone,
          mk_world (reads w1) (sink_calls w1) (out w1 ++ [ParserReturnedNothing res])%list).
Proof.
  intros E. unfold parse_to_influx_body, bind at 1. rewrite E.
  destruct (truthy res); reflexivity.
Qed.

(** C7.  When the fetch capability returns a falsy result the run is a
    no-op that is not an error: the body returns normally, the one line
    "parser returned nothing" is printed, the clock is not read again (no
    normalization starts), and the sink receives nothing. *)
Theorem empty_result_is_a_noop :
  forall zone data_type target w t start res w1,
    fetch zone data_type target w = (Returned (t, start, res), w1) ->
    truthy res = false ->
    body zone data_type target w
    = (Returned VNone,
       mk_world (reads w1) (sink_calls w) (out w ++ [ParserReturnedNothing res])%list)
    /\ run zone data_type target w = body zone data_type target w.
Proof.
  intros zone data_type target w t start res w1 E Hres.
  destruct (fetch_frame _ _ _ _ _ _ E) as [Hs Ho].
  assert (B : body zone data_type target w
              = (Returned VNone,
                 mk_world (reads w1) (sink_calls w)
                   (out w ++ [ParserReturnedNothing res])%list)).
  { rewrite (body_after_fetch _ _ _ _ _ _ _ _ E), Hres, Hs, Ho. reflexivity. }
  split; [exact B |]. rewrite run_of_body, B. reflexivity.
Qed.

Lemma process_malformed zone data_type t start res w1 :
  has_malformed res = true ->
  process zone data_type t start res w1
  = if lacks_datetime res
    then (Returned VNone,
          mk_world (S (reads w1)) (sink_calls w1) (out w1 ++ [LacksDatetime res])%list)
    else (Raised (mk_tb Normalize AssertionError),
          mk_world (S (reads w1)) (sink_calls w1) (out w1)).
Proof.
  intros H. unfold process, bind, read_clock, lift_at.
  rewrite (normalize_malformed _ H).
  destruct (lacks_datetime res); reflexivity.
Qed.

(** C2.  Whenever some record of the fetch result lacks "datetime" or
    carries one that is not a native datetime, the sink receives nothing.
    A batch, that is a truthy result, is moreover reported as a schema
    failure before anything is written: if some record has no "datetime"
    to read, the message of line 98 is printed and the body returns;
    otherwise the assertion of line 104 fails and the guard prints its
    traceback.  (A falsy result is the empty result of C7.) *)
Theorem malformed_batch_is_discarded :
  forall zone data_type target w t start res w1,
    fetch zone data_type target w = (Returned (t, start, res), w1) ->
    has_malformed res = true ->
    (exists w',
        run zone data_type target w = (Returned VNone, w')
        /\ sink_calls w' = sink_calls w)
    /\ (truthy res = true ->
        run zone data_type target w
        = (Returned VNone,
           if lacks_datetime res
           then mk_world (S (reads w1)) (sink_calls w) (out w ++ [LacksDatetime res])%list
           else mk_world (S (S (reads w1))) (sink_calls w)
                  (out w ++ [TracebackAt (clock (S (reads w1)))
                               (mk_tb Normalize AssertionError)])%list)
        /\ (lacks_datetime res = false ->
            body zone data_type target w
            = (Raised (mk_tb Normalize AssertionError),
               mk_world (S (reads w1)) (sink_calls w) (out w)))
        /\ exists new,
             out (snd (run zone data_type target w)) = (out w ++ new)%list
             /\ reports_schema_failure res new).
Proof.
  intros zone data_type target w t start res w1 E Hbad.
  destruct (fetch_frame _ _ _ _ _ _ E) as [Hs Ho].
  pose proof (body_after_fetch _ _ _ _ _ _ _ _ E) as B.
  rewrite (process_malformed _ _ _ _ _ _ Hbad), Hs, Ho in B.
  pose proof (run_of_body zone data_type target w) as R. rewrite B in R.
  split.
  - destruct (truthy res), (lacks_datetime res); rewrite R; eexists; split;
      reflexivity.
  - intros Ht. rewrite Ht in *. split; [| split].
    + rewrite R. destruct (lacks_datetime res); reflexivity.
    + intros Hl. rewrite B, Hl. reflexivity.
    + rewrite R. unfold reports_schema_failure.
      destruct (lacks_datetime res); simpl; eexists; (split; [reflexivity |]).
      * left. now left.
      * right. eexists. now left.
Qed.

End RunFacts.

(** ** min, max and the freshness report *)

Module FreshnessFacts.

(** Python's comparisons order the datetimes of [dts] by the key [k]: on
    the batch they never raise and they are the strict order of [k]. *)
Definition orders_by (k : datetime -> Z) (dts : list datetime) : Prop :=
  forall a b, In a dts -> In b dts ->
    dt_gt a b = Ok (k b <? k a) /\ dt_lt a b = Ok (k a <? k b).

(** [m] is the first among the least elements of [dts], [M] the first
    among the greatest, for the key [k]. *)
Definition first_least (k : datetime -> Z) (m : datetime) (dts : list datetime) : Prop :=
  exists pre post,
    dts = (pre ++ m :: post)%list
    /\ (forall d, In d pre -> k m < k d)
    /\ (forall d, In d post -> k m <= k d).

Definition first_greatest (k : datetime -> Z) (M : datetime) (dts : list datetime) : Prop :=
  exists pre post,
    dts = (pre ++ M :: post)%list
    /\ (forall d, In d pre -> k d < k M)
    /\ (forall d, In d post -> k d <= k M).

(** All the datetimes have the same [tzinfo] object, or all are naive. *)
Definition shares_tzinfo (dts : list datetime) : bool :=
  forallb (fun a => forallb (same_tzinfo a) dts) dts.

Definition offset_of (d : datetime) : Z :=
  match tz d with Some (_, off) => off | None => 0 end.

(** All the datetimes are aware, and those with the same [tzinfo] object
    have the same offset (no change of offset inside the batch). *)
Definition fixed_offsets (dts : list datetime) : bool :=
  forallb
    (fun a =>
       is_aware a
       && forallb (fun b => implb (same_tzinfo a b) (offset_of a =? offset_of b)) dts)
    dts.

(** The datetimes are all aware or all naive. *)
Definition same_awareness (dts : list datetime) : bool :=
  match dts with
  | [] => true
  | d :: l => forallb (fun x => Bool.eqb (is_aware x) (is_aware d)) l
  end.

(** With one [tzinfo] object the order is that of the wall clocks. *)
Lemma shares_tzinfo_orders dts : shares_tzinfo dts = true -> orders_by wall dts.
Proof.
  unfold shares_tzinfo. intros H a b Ha Hb.
  rewrite forallb_forall in H. specialize (H a Ha). rewrite forallb_forall in H.
  unfold dt_gt, dt_lt. rewrite (H b Hb). split; reflexivity.
Qed.

Lemma ltb_shift x y o : (x <? y) = (x - o <? y - o).
Proof.
  destruct (Z.ltb_spec x y), (Z.ltb_spec (x - o) (y - o)); (reflexivity || lia).
Qed.

(** With fixed offsets the order is that of the instants. *)
Lemma fixed_offsets_orders dts : fixed_offsets dts = true -> orders_by instant dts.
Proof.
  unfold fixed_offsets. intros H a b Ha Hb.
  rewrite forallb_forall in H.
  pose proof (H a Ha) as Fa. pose proof (H b Hb) as Fb.
  apply andb_prop in Fa. destruct Fa as [Aa Fa].
  apply andb_prop in Fb. destruct Fb as [Ab _].
  rewrite forallb_forall in Fa. specialize (Fa b Hb).
  unfold dt_gt, dt_lt. rewrite Aa, Ab. simpl.
  destruct (same_tzinfo a b); [| split; reflexivity].
  simpl in Fa. apply Z.eqb_eq in Fa.
  unfold instant, is_aware, offset_of in *.
  destruct (tz a) as [[i oa] |]; [| discriminate].
  destruct (tz b) as [[j ob] |]; [| discriminate].
  subst ob. split; f_equal; apply ltb_shift.
Qed.

(** The loop of [min] keeps the first least element seen so far. *)
Lemma min_from_first k all :
  orders_by k all ->
  forall l pre best mid,
    all = (pre ++ best :: mid ++ l)%list ->
    (forall d, In d pre -> k best < k d) ->
    (forall d, In d mid -> k best <= k d) ->
    exists m, min_from best l = Ok m /\ first_least k m all.
Proof.
  intros Hk. induction l as [| x l IH]; intros pre best mid E Hpre Hmid.
  - exists best. split; [reflexivity |]. exists pre, mid.
    rewrite app_nil_r in E. auto.
  - simpl.
    assert (Hx : In x all).
    { rewrite E. apply in_or_app. right. right. apply in_or_app. right. now left. }
    assert (Hb : In best all).
    { rewrite E. apply in_or_app. right. now left. }
    rewrite (proj2 (Hk x best Hx Hb)).
    destruct (Z.ltb_spec (k x) (k best)) as [Hlt | Hge].
    + apply (IH (pre ++ best :: mid)%list x []).
      * rewrite E, <- app_assoc. reflexivity.
      * intros d Hd. apply in_app_or in Hd.
        destruct Hd as [Hd | [<- | Hd]];
          [specialize (Hpre d Hd) | | specialize (Hmid d Hd)]; lia.
      * intros d [].
    + apply (IH pre best (mid ++ [x])%list).
      * rewrite E, <- app_assoc. reflexivity.
      * exact Hpre.
      * intros d Hd. apply in_app_or in Hd.
        destruct Hd as [Hd | [<- | []]]; [now apply Hmid | lia].
Qed.

Lemma max_from_first k all :
  orders_by k all ->
  forall l pre best mid,
    all = (pre ++ best :: mid ++ l)%list ->
    (forall d, In d pre -> k d < k best) ->
    (forall d, In d mid -> k d <= k best) ->
    exists M, max_from best l = Ok M /\ first_greatest k M all.
Proof.
  intros Hk. induction l as [| x l IH]; intros pre best mid E Hpre Hmid.
  - exists best. split; [reflexivity |]. exists pre, mid.
    rewrite app_nil_r in E. auto.
  - simpl.
    assert (Hx : In x all).
    { rewrite E. apply in_or_app. right. right. apply in_or_app. right. now left. }
    assert (Hb : In best all).
    { rewrite E. apply in_or_app. right. now left. }
    rewrite (proj1 (Hk x best Hx Hb)).
    destruct (Z.ltb_spec (k best) (k x)) as [Hlt | Hge].
    + apply (IH (pre ++ best :: mid)%list x []).
      * rewrite E, <- app_assoc. reflexivity.
      * intros d Hd. apply in_app_or in Hd.
        destruct Hd as [Hd | [<- | Hd]];
          [specialize (Hpre d Hd) | | specialize (Hmid d Hd)]; lia.
      * intros d [].
    + apply (IH pre best (mid ++ [x])%list).
      * rewrite E, <- app_assoc. reflexivity.
      * exact Hpre.
      * intros d Hd. apply in_app_or in Hd.
        destruct Hd as [Hd | [<- | []]]; [now apply Hmid | lia].
Qed.

(** On a non-empty batch that Python orders by [k], [min] returns the
    first least and [max] the first greatest element. *)
Lemma py_min_first k dts :
  dts <> [] -> orders_by k dts ->
  exists m, py_min dts = Ok m /\ first_least k m dts.
Proof.
  destruct dts as [| d0 l]; [congruence |]. intros _ Hk.
  apply (min_from_first k (d0 :: l) Hk l [] d0 []); [reflexivity | |]; intros d [].
Qed.

Lemma py_max_first k dts :
  dts <> [] -> orders_by k dts ->
  exists M, py_max dts = Ok M /\ first_greatest k M dts.
Proof.
  destruct dts as [| d0 l]; [congruence |]. intros _ Hk.
  apply (max_from_first k (d0 :: l) Hk l [] d0 []); [reflexivity | |]; intros d [].
Qed.

Lemma first_least_In k m dts : first_least k m dts -> In m dts.
Proof.
  intros (pre & post & -> & _). apply in_or_app. right. now left.
Qed.

Lemma first_greatest_In k M dts : first_greatest k M dts -> In M dts.
Proof.
  intros (pre & post & -> & _). apply in_or_app. right. now left.
Qed.

Lemma first_least_le k m dts d : first_least k m dts -> In d dts -> k m <= k d.
Proof.
  intros (pre & post & -> & Hpre & Hpost) Hd. apply in_app_or in Hd.
  destruct Hd as [Hd | [<- | Hd]];
    [specialize (Hpre d Hd) | | specialize (Hpost d Hd)]; lia.
Qed.

Lemma first_greatest_ge k M dts d : first_greatest k M dts -> In d dts -> k d <= k M.
Proof.
  intros (pre & post & -> & Hpre & Hpost) Hd. apply in_app_or in Hd.
  destruct Hd as [Hd | [<- | Hd]];
    [specialize (Hpre d Hd) | | specialize (Hpost d Hd)]; lia.
Qed.

(** In UTC a datetime shows its instant, when that is a date at all. *)
Lemma to_UTC_instant d :
  to_UTC (arrow_get_datetime d)
  = if representable (instant d) then Ok (utc_arrow (instant d)) else Raise OverflowError.
Proof.
  unfold to_UTC, arrow_get_datetime, instant.
  destruct (tz d) as [[i off] |]; simpl; [reflexivity |].
  now rewrite Z.sub_0_r.
Qed.

(** The loops of [min] and [max] raise nothing but [TypeError]. *)
Lemma max_from_raises l : forall best e, max_from best l = Raise e -> e = TypeError.
Proof.
  induction l as [| x l IH]; intros best e; simpl; [discriminate |].
  unfold dt_gt. destruct (same_tzinfo x best).
  - destruct (wall best <? wall x); apply IH.
  - destruct (is_aware x && is_aware best).
    + destruct (instant best <? instant x); apply IH.
    + intros H. now inversion H.
Qed.

Lemma min_from_raises l : forall best e, min_from best l = Raise e -> e = TypeError.
Proof.
  induction l as [| x l IH]; intros best e; simpl; [discriminate |].
  unfold dt_lt. destruct (same_tzinfo x best).
  - destruct (wall x <? wall best); apply IH.
  - destruct (is_aware x && is_aware best).
    + destruct (instant x <? instant best); apply IH.
    + intros H. now inversion H.
Qed.

(** [ValueError] from [min] or [max] means the sequence was empty. *)
Lemma py_max_ValueError dts : py_max dts = Raise ValueError -> dts = [].
Proof.
  destruct dts as [| d l]; [reflexivity |]. simpl. intros H.
  apply max_from_raises in H. discriminate.
Qed.

Lemma py_min_ValueError dts : py_min dts = Raise ValueError -> dts = [].
Proof.
  destruct dts as [| d l]; [reflexivity |]. simpl. intros H.
  apply min_from_raises in H. discriminate.
Qed.

Lemma to_UTC_raises a e : to_UTC a = Raise e -> e = OverflowError.
Proof.
  unfold to_UTC. destruct (representable _); intros H; now inversion H.
Qed.

Lemma to_UTC_returns d u :
  to_UTC (arrow_get_datetime d) = Ok u ->
  u = utc_arrow (instant d) /\ representable (instant d) = true.
Proof.
  rewrite to_UTC_instant. destruct (representable (instant d)); intros H;
    inversion H. split; reflexivity.
Qed.

End FreshnessFacts.
Import FreshnessFacts.

Section Freshness.

Variable clock : nat -> Z.

Lemma assess_computed dts target w M m last first :
  py_max dts = Ok M ->
  to_UTC (arrow_get_datetime M) = Ok last ->
  py_min dts = Ok m ->
  to_UTC (arrow_get_datetime m) = Ok first ->
  assess clock dts target w
  = if truthy target
    then (Returned (mk_report first last NoWarning), w)
    else if two_hours <? micros_between (utc_arrow (clock (reads w))) last
         then (Returned (mk_report first last TooOld),
               mk_world (S (reads w)) (sink_calls w) (out w))
         else (Returned (mk_report first last
                           (FreshEnough (utc_arrow (clock (S (reads w)))))),
               mk_world (S (S (reads w))) (sink_calls w) (out w)).
Proof.
  intros EM EL Em EF. unfold assess, bind, lift_at. rewrite EM, EL, Em, EF.
  destruct (truthy target); simpl.
  - destruct w. reflexivity.
  - match goal with |- context [two_hours <? ?x] => destruct (two_hours <? x) end;
      reflexivity.
Qed.

(** The conversion of the maximum, then that of the minimum, may fail. *)
Lemma assess_overflow dts target w M m :
  py_max dts = Ok M ->
  py_min dts = Ok m ->
  representable (instant M) && representable (instant m) = false ->
  assess clock dts target w = (Raised (mk_tb Validate OverflowError), w).
Proof.
  intros EM Em H. unfold assess, bind, lift_at.
  rewrite EM, to_UTC_instant.
  destruct (representable (instant M)); [| reflexivity].
  rewrite Em, to_UTC_instant.
  destruct (representable (instant m)); [discriminate | reflexivity].
Qed.

(** C4, as the code has it.  Take a non-empty batch that Python's
    comparisons order by a key [k] (the wall clock when the datetimes
    share one [tzinfo] object or are all naive, the instant when they are
    aware with one offset per [tzinfo] object).  [min] and [max] return its
    first least element [m] and its first greatest element [M].  When the
    instants of both are dates of the years 1..9999, the report has
    [first] = [m] and [last] = [M], both converted to UTC: with a truthy
    [target_datetime] no warning is computed and the clock is not read,
    however old [M] is; with a falsy one the batch is reported too old
    exactly when the clock reading minus [last] is strictly more than two
    hours.  When one of the two instants is no such date, the conversion
    raises [OverflowError] and there is no report. *)
Theorem freshness_report :
  forall k dts target w,
    dts <> [] ->
    orders_by k dts ->
    exists m M,
      py_min dts = Ok m /\ py_max dts = Ok M
      /\ first_least k m dts /\ first_greatest k M dts
      /\ (representable (instant M) && representable (instant m) = true ->
          let first := utc_arrow (instant m) in
          let last := utc_arrow (instant M) in
          let now := clock (reads w) in
          to_UTC (arrow_get_datetime m) = Ok first
          /\ to_UTC (arrow_get_datetime M) = Ok last
          /\ (truthy target = true ->
              assess clock dts target w = (Returned (mk_report first last NoWarning), w))
          /\ (truthy target = false ->
              (two_hours < now - instant M ->
               assess clock dts target w
               = (Returned (mk_report first last TooOld),
                  mk_world (S (reads w)) (sink_calls w) (out w)))
              /\ (now - instant M <= two_hours ->
                  assess clock dts target w
                  = (Returned (mk_report first last
                                 (FreshEnough (utc_arrow (clock (S (reads w)))))),
                     mk_world (S (S (reads w))) (sink_calls w) (out w)))))
      /\ (representable (instant M) && representable (instant m) = false ->
          assess clock dts target w = (Raised (mk_tb Validate OverflowError), w)).
Proof.
  intros k dts target w Hne Hk.
  destruct (py_min_first k dts Hne Hk) as (m & Em & Hm).
  destruct (py_max_first k dts Hne Hk) as (M & EM & HM).
  exists m, M. repeat (split; [assumption |]). split.
  - intros Hr first last now. apply andb_prop in Hr. destruct Hr as [RM Rm].
    assert (EF : to_UTC (arrow_get_datetime m) = Ok first).
    { rewrite to_UTC_instant, Rm. reflexivity. }
    assert (EL : to_UTC (arrow_get_datetime M) = Ok last).
    { rewrite to_UTC_instant, RM. reflexivity. }
    assert (Hwall : micros_between (utc_arrow now) last = now - instant M).
    { unfold last, micros_between. simpl. lia. }
    split; [exact EF |]. split; [exact EL |].
    rewrite (assess_computed _ target w _ _ _ _ EM EL Em EF).
    fold now. rewrite Hwall. split.
    + intros Ht. rewrite Ht. reflexivity.
    + intros Ht. rewrite Ht. split; intros Hcmp.
      * apply Z.ltb_lt in Hcmp. rewrite Hcmp. reflexivity.
      * apply Z.ltb_ge in Hcmp. rewrite Hcmp. reflexivity.
  - intros Hr. now apply assess_overflow with (M := M) (m := m).
Qed.

End Freshness.

(** ** Emptiness and the freshness report *)

(** A computation whose exceptions all satisfy [P]. *)
Definition raises_only {A} (P : traceback -> Prop) (m : M A) : Prop :=
  forall w tb w', m w = (Raised tb, w') -> P tb.

Lemma raises_only_bind {A B} P (m : M A) (k : A -> M B) :
  raises_only P m -> (forall a, raises_only P (k a)) -> raises_only P (bind m k).
Proof.
  intros Hm Hk w tb w' H. apply bind_raised in H.
  destruct H as [H | (a & w1 & _ & H)]; [now apply Hm in H | now apply Hk in H].
Qed.

Lemma raises_only_lift_at {A} (P : traceback -> Prop) s (r : result A) :
  (forall e, r = Raise e -> P (mk_tb s e)) -> raises_only P (lift_at s r).
Proof.
  intros Hr w tb w' H. apply lift_at_raised in H. destruct H as (_ & Hs & He).
  destruct tb as [s' e]. simpl in *. subst. now apply Hr.
Qed.

Lemma never_raises_ret {A} P (a : A) : raises_only P (ret a).
Proof. intros w tb w' H. discriminate. Qed.

Lemma never_raises_print P l : raises_only P (print l).
Proof. intros w tb w' H. discriminate. Qed.

Lemma never_raises_read_clock P clock : raises_only P (read_clock clock).
Proof. intros w tb w' H. discriminate. Qed.

Lemma write_points_raises sink_answer df series :
  raises_only (fun tb => tb_stage tb = Write) (write_points sink_answer df series).
Proof.
  intros w tb w' H. unfold write_points in H.
  destruct (sink_answer (sink_calls w) df series); inversion H; reflexivity.
Qed.

Lemma raises_only_weaken {A} (P Q : traceback -> Prop) (m : M A) :
  (forall tb, P tb -> Q tb) -> raises_only P m -> raises_only Q m.
Proof. intros HPQ Hm w tb w' H. apply HPQ. now apply Hm in H. Qed.

(** A truthy result gives at least one record. *)
Lemma truthy_res_list res : truthy res = true -> to_res_list res <> [].
Proof. destruct res as [| | | | | | [] | [] |]; simpl; congruence. Qed.

Lemma datetimes_of_length l : forall dts, datetimes_of l = Ok dts -> length dts = length l.
Proof.
  induction l as [| e l IH]; simpl; intros dts H.
  - now inversion H.
  - destruct (getitem e "datetime"); [| discriminate].
    destruct (datetimes_of l) as [vs |]; [| discriminate].
    inversion H; subst. simpl. now rewrite (IH vs).
Qed.

Lemma native_values_length dts :
  forallb is_native_datetime dts = true -> length (native_values dts) = length dts.
Proof.
  induction dts as [| v dts IH]; simpl; [reflexivity |].
  intros H. apply andb_prop in H. destruct H as [Hv Hd].
  destruct v; try discriminate. simpl. now rewrite IH.
Qed.

(** The list handed to [min] and [max] has one datetime per record. *)
Lemma batch_datetimes res dts rows df :
  normalize res = Ok (Batch dts rows df) ->
  length (native_values dts) = length (to_res_list res).
Proof.
  unfold normalize.
  destruct (datetimes_of (to_res_list res)) as [vs |] eqn:E; [| discriminate].
  destruct (forallb is_native_datetime vs) eqn:N; [| discriminate].
  destruct (flatten_all (to_res_list res)); [| discriminate].
  intros H. inversion H; subst.
  now rewrite (native_values_length _ N), (datetimes_of_length _ _ E).
Qed.

Section Emptiness.

Variable PARSER_KEY_TO_DICT : string -> option (string -> option parser).
Variable arrow_parse : pyval -> result Arrow.
Variable clock : nat -> Z.
Variable sink_answer : list write_call -> DataFrame -> string -> option pyexn.
Variable verbose : bool.

Local Abbreviation body :=
  (parse_to_influx_body PARSER_KEY_TO_DICT arrow_parse clock sink_answer verbose).

(** The exceptions other than the [ValueError] of an empty [min]/[max]. *)
Definition not_empty_sequence (tb : traceback) : Prop :=
  tb <> mk_tb Validate ValueError.

Lemma assess_nonempty dts target :
  dts <> [] -> raises_only not_empty_sequence (assess clock dts target).
Proof.
  intros Hne. unfold assess.
  apply raises_only_bind.
  { apply raises_only_lift_at. intros e He Heq. inversion Heq; subst.
    now apply py_max_ValueError in He. }
  intros mx. apply raises_only_bind.
  { apply raises_only_lift_at. intros e He Heq. inversion Heq; subst.
    apply to_UTC_raises in He. discriminate. }
  intros last. apply raises_only_bind.
  { apply raises_only_lift_at. intros e He Heq. inversion Heq; subst.
    now apply py_min_ValueError in He. }
  intros mn. apply raises_only_bind.
  { apply raises_only_lift_at. intros e He Heq. inversion Heq; subst.
    apply to_UTC_raises in He. discriminate. }
  intros first. apply raises_only_bind; [| intros; apply never_raises_ret].
  destruct (negb (truthy target)); [| apply never_raises_ret].
  apply raises_only_bind; [apply never_raises_read_clock |].
  intros now. destruct (two_hours <? _); [apply never_raises_ret |].
  apply raises_only_bind; [apply never_raises_read_clock |].
  intros; apply never_raises_ret.
Qed.

Lemma process_nonempty zone data_type target start res :
  truthy res = true ->
  raises_only not_empty_sequence
    (process clock sink_answer verbose zone data_type target start res).
Proof.
  intros Ht. unfold process.
  apply raises_only_bind; [apply never_raises_read_clock |]. intros now.
  intros w tb w' H. apply bind_raised in H.
  destruct H as [H | (batch & w1 & N & H)].
  { apply lift_at_raised in H. destruct H as (_ & Hs & _).
    intros ->. discriminate. }
  apply lift_at_returned in N. destruct N as [-> N].
  destruct batch as [| dts rows df].
  { revert H. apply raises_only_bind; [apply never_raises_print |].
    intros; apply never_raises_ret. }
  revert H. apply raises_only_bind.
  { apply raises_only_lift_at. intros e _ Heq. discriminate. }
  intros df'. apply raises_only_bind.
  { eapply raises_only_weaken; [| apply write_points_raises].
    intros tb' Hs ->. discriminate. }
  intros _. apply raises_only_bind.
  { apply assess_nonempty. intros Hnil.
    apply batch_datetimes in N. rewrite Hnil in N. simpl in N.
    apply (truthy_res_list _ Ht). destruct (to_res_list res); [reflexivity | discriminate]. }
  intros report. apply raises_only_bind; [| intros; apply never_raises_ret].
  destruct verbose; [apply never_raises_print |].
  apply raises_only_bind; [apply never_raises_read_clock |].
  intros; apply never_raises_print.
Qed.

(** C10.  The list that [min] and [max] are applied to is never empty:
    they are reached only with the datetimes of a truthy fetch result, one
    per record; the only [ValueError] they can raise is that of an empty
    sequence; and no run of the body ends in it. *)
Theorem min_max_never_see_an_empty_batch :
  forall zone data_type target w,
    (forall res dts rows df,
        truthy res = true ->
        normalize res = Ok (Batch dts rows df) ->
        native_values dts <> []
        /\ length (native_values dts) = length (to_res_list res))
    /\ (forall dts,
           py_max dts = Raise ValueError \/ py_min dts = Raise ValueError -> dts = [])
    /\ (py_max [] = Raise ValueError /\ py_min [] = Raise ValueError)
    /\ (forall w', body zone data_type target w <> (Raised (mk_tb Validate ValueError), w')).
Proof.
  intros zone data_type target w. split; [| split; [| split]].
  - intros res dts rows df Ht N. pose proof (batch_datetimes _ _ _ _ N) as L.
    split; [| exact L]. intros Hnil. rewrite Hnil in L. simpl in L.
    apply (truthy_res_list _ Ht). destruct (to_res_list res); [reflexivity | discriminate].
  - intros dts [H | H]; [now apply py_max_ValueError | now apply py_min_ValueError].
  - split; reflexivity.
  - intros w' H.
    assert (G : raises_only not_empty_sequence (body zone data_type target)).
    { unfold parse_to_influx_body. apply raises_only_bind.
      - unfold fetch. apply raises_only_bind.
        { destruct (truthy target); [| apply never_raises_ret].
          apply raises_only_bind; [| intros; apply never_raises_ret].
          apply raises_only_lift_at. intros e _ Heq. discriminate. }
        intros t. apply raises_only_bind; [apply never_raises_read_clock |].
        intros start. apply raises_only_bind.
        { apply raises_only_lift_at. intros e _ Heq. discriminate. }
        intros p. apply raises_only_bind; [| intros; apply never_raises_ret].
        apply raises_only_lift_at. intros e _ Heq. discriminate.
      - intros [[t start] res]. destruct (truthy res) eqn:Ht; simpl.
        + now apply process_nonempty.
        + apply raises_only_bind; [apply never_raises_print |].
          intros; apply never_raises_ret. }
    apply G in H. now apply H.
Qed.

End Emptiness.

(** ** The steps of a run *)

Section RunSteps.

Variable PARSER_KEY_TO_DICT : string -> option (string -> option parser).
Variable arrow_parse : pyval -> result Arrow.
Variable clock : nat -> Z.
Variable sink_answer : list write_call -> DataFrame -> string -> option pyexn.
Variable verbose : bool.

Local Abbreviation fetch := (fetch PARSER_KEY_TO_DICT arrow_parse clock).
Local Abbreviation process := (process clock sink_answer verbose).
Local Abbreviation run :=
  (parse_to_influx PARSER_KEY_TO_DICT arrow_parse clock sink_answer verbose).

Lemma assess_quiet dts target : quiet (assess clock dts target).
Proof.
  unfold assess. apply quiet_bind; [apply quiet_lift_at |]. intros mx.
  apply quiet_bind; [apply quiet_lift_at |]. intros last.
  apply quiet_bind; [apply quiet_lift_at |]. intros mn.
  apply quiet_bind; [apply quiet_lift_at |]. intros first.
  apply quiet_bind; [| intros; apply quiet_ret].
  destruct (negb (truthy target)); [| apply quiet_ret].
  apply quiet_bind; [apply quiet_read_clock |]. intros now.
  destruct (two_hours <? _); [apply quiet_ret |].
  apply quiet_bind; [apply quiet_read_clock | intros; apply quiet_ret].
Qed.

(** The last steps of a run that reached the report (lines 130-145). *)
Definition conclude (zone data_type : string) (res : pyval) (elapsed_time : Z)
  (report : FreshnessReport) (w : world) : world :=
  if verbose
  then mk_world (reads w) (sink_calls w)
         (out w ++ [VerboseReport res elapsed_time (first_dt report) (last_dt report)
                      (max_dt_warning report)])%list
  else mk_world (S (reads w)) (sink_calls w)
         (out w ++ [Fetched (clock (reads w)) data_type zone])%list.

(** [process], step by step. *)
Lemma process_computed zone data_type t start res w1 :
  process zone data_type t start res w1
  = let w2 := mk_world (S (reads w1)) (sink_calls w1) (out w1) in
    match normalize res with
    | Raise e => (Raised (mk_tb Normalize e), w2)
    | Ok MissingDatetime =>
        (Returned VNone,
         mk_world (S (reads w1)) (sink_calls w1) (out w1 ++ [LacksDatetime res])%list)
    | Ok (Batch dts rows df) =>
        match set_index df "datetime" with
        | Raise e => (Raised (mk_tb Normalize e), w2)
        | Ok df' =>
            let call := mk_call df' (series_target data_type zone) in
            let w3 := mk_world (S (reads w1)) (sink_calls w1 ++ [call])%list (out w1) in
            match sink_answer (sink_calls w1) df' (series_target data_type zone) with
            | Some e => (Raised (mk_tb Write e), w3)
            | None =>
                match assess clock (native_values dts) t w3 with
                | (Raised tb, w4) => (Raised tb, w4)
                | (Returned report, w4) =>
                    (Returned VNone,
                     conclude zone data_type res (clock (reads w1) - start) report w4)
                end
            end
        end
    end.
Proof.
  unfold process, bind, read_clock, lift_at. cbn zeta.
  destruct (normalize res) as [[| dts rows df] | e]; try reflexivity.
  destruct (set_index df "datetime") as [df' | e]; [| reflexivity].
  unfold write_points at 1. cbn [reads sink_calls out].
  destruct (sink_answer (sink_calls w1) df' (series_target data_type zone));
    [reflexivity |].
  destruct (assess clock (native_values dts) t _) as [[report | tb] w4];
    [| reflexivity].
  unfold conclude. destruct verbose; reflexivity.
Qed.

(** A run whose batch is normalized, indexed and accepted by the sink
    goes on to the report. *)
Lemma run_on_batch zone data_type target w t start res w1 dts rows df0 df :
  fetch zone data_type target w = (Returned (t, start, res), w1) ->
  truthy res = true ->
  normalize res = Ok (Batch dts rows df0) ->
  set_index df0 "datetime" = Ok df ->
  sink_answer (sink_calls w) df (series_target data_type zone) = None ->
  run zone data_type target w
  = match assess clock (native_values dts) t
            (mk_world (S (reads w1))
               (sink_calls w ++ [mk_call df (series_target data_type zone)])%list
               (out w)) with
    | (Returned report, w4) =>
        (Returned VNone, conclude zone data_type res (clock (reads w1) - start) report w4)
    | (Raised tb, w4) => (Returned VNone, after_except clock w4 tb)
    end.
Proof.
  intros E Ht N I A.
  destruct (fetch_frame _ _ _ _ _ _ _ _ _ E) as [Hs Ho].
  rewrite run_of_body, body_unfold, E, Ht, process_computed, N, I. cbn zeta.
  rewrite Hs, A, Ho.
  destruct (assess clock (native_values dts) t _) as [[report | tb] w4]; reflexivity.
Qed.

End RunSteps.

(** ** A falsy target_datetime *)

Section LivePoll.

Variable PARSER_KEY_TO_DICT : string -> option (string -> option parser).
Variable arrow_parse arrow_parse' : pyval -> result Arrow.
Variable clock : nat -> Z.
Variable sink_answer : list write_call -> DataFrame -> string -> option pyexn.
Variable verbose : bool.

Local Abbreviation fetch_with := (fun ap => fetch PARSER_KEY_TO_DICT ap clock).
Local Abbreviation process := (process clock sink_answer verbose).
Local Abbreviation run_with :=
  (fun ap => parse_to_influx PARSER_KEY_TO_DICT ap clock sink_answer verbose).

(** The report depends on the target only through its truth value. *)
Lemma assess_by_truth dts t t' w :
  truthy t = truthy t' -> assess clock dts t w = assess clock dts t' w.
Proof. intros H. unfold assess. now rewrite H. Qed.

Lemma process_by_truth zone data_type t t' start res w :
  truthy t = truthy t' ->
  process zone data_type t start res w = process zone data_type t' start res w.
Proof.
  intros H. unfold process, bind.
  destruct (read_clock clock w) as [[now | tb] w0]; [| reflexivity].
  destruct (lift_at Normalize (normalize res) w0) as [[[| dts rows df] | tb] w1];
    try reflexivity.
  destruct (lift_at Normalize (set_index df "datetime") w1) as [[df' | tb] w2];
    [| reflexivity].
  destruct (write_points sink_answer df' (series_target data_type zone) w2)
    as [[[] | tb] w3]; [| reflexivity].
  now rewrite (assess_by_truth _ t t' w3 H).
Qed.

Lemma fetch_falsy ap zone data_type target w :
  truthy target = false ->
  fetch_with ap zone data_type target w
  = match parser_lookup PARSER_KEY_TO_DICT data_type zone with
    | Raise e =>
        (Raised (mk_tb Lookup e), mk_world (S (reads w)) (sink_calls w) (out w))
    | Ok p =>
        match p (if str_in data_type ["exchange"; "exchangeForecast"]
                 then split zone "->" else [zone]) target with
        | Raise e =>
            (Raised (mk_tb Fetch e), mk_world (S (reads w)) (sink_calls w) (out w))
        | Ok res =>
            (Returned (target, clock (reads w), res),
             mk_world (S (reads w)) (sink_calls w) (out w))
        end
    end.
Proof.
  intros Ht. unfold fetch, bind, lift_at, read_clock, ret. rewrite Ht.
  destruct (parser_lookup PARSER_KEY_TO_DICT data_type zone) as [p | e];
    [| reflexivity].
  match goal with |- context [p ?a ?b] => destruct (p a b) end; reflexivity.
Qed.

(** The rebound target is truthy exactly when the argument was. *)
Lemma fetch_rebinds ap zone data_type target w t start res w1 :
  fetch_with ap zone data_type target w = (Returned (t, start, res), w1) ->
  truthy t = truthy target /\ (truthy target = false -> t = target).
Proof.
  destruct (truthy target) eqn:Ht.
  - unfold fetch, bind at 1. unfold bind at 1. rewrite Ht.
    destruct (lift_at Resolve (arrow_get ap target) w) as [[a | tb] w0];
      [| discriminate].
    unfold ret at 1. intros H. apply bind_returned in H.
    destruct H as (s0 & w2 & _ & H). apply bind_returned in H.
    destruct H as (p & w3 & _ & H). apply bind_returned in H.
    destruct H as (r & w4 & _ & H). inversion H; subst.
    split; [reflexivity | discriminate].
  - rewrite (fetch_falsy ap _ _ _ _ Ht).
    destruct (parser_lookup PARSER_KEY_TO_DICT data_type zone) as [p | e];
      [| discriminate].
    match goal with |- context [p ?a ?b] => destruct (p a b) end; [| discriminate].
    intros H. inversion H; subst. split; [exact Ht | reflexivity].
Qed.

(** Whether and when a report carries a warning. *)
Lemma assess_warning dts t w0 rep w1 :
  assess clock dts t w0 = (Returned rep, w1) ->
  (max_dt_warning rep = NoWarning <-> truthy t = true)
  /\ (truthy t = true -> w1 = w0)
  /\ (truthy t = false -> (reads w0 < reads w1)%nat).
Proof.
  unfold assess, bind, lift_at.
  destruct (py_max dts) as [M |]; [| discriminate].
  destruct (to_UTC (arrow_get_datetime M)) as [last |]; [| discriminate].
  destruct (py_min dts) as [m |]; [| discriminate].
  destruct (to_UTC (arrow_get_datetime m)) as [first |]; [| discriminate].
  destruct (truthy t); simpl.
  - intros H. inversion H; subst. simpl.
    split; [tauto |]. split; [reflexivity | discriminate].
  - match goal with |- context [two_hours <? ?x] => destruct (two_hours <? x) end;
      intros H; inversion H; subst; simpl;
      (split; [split; discriminate |]); (split; [discriminate | intros _; lia]).
Qed.

(** C8.  A [target_datetime] that is falsy without being [None] makes the
    run a live poll.  It is not parsed: the fetch is the lookup and the
    call alone, [arrow.get] plays no part in the run, and the capability
    receives the value as it is.  Staleness is evaluated against the
    current time: the report is computed with one reading of the clock and
    says too old exactly when that reading minus [last] is more than two
    hours (after a second reading it says fresh otherwise), and a run on a
    batch that the sink accepts prints that report, or the confirmation
    after these readings.  Only a truthy target leaves the warning
    uncomputed and the clock unread.  The report is the one for [None],
    and so is the whole run if the capability answers the falsy target as
    it answers [None]. *)
Theorem falsy_target_is_a_live_poll :
  forall zone data_type target w,
    truthy target = false ->
    fetch_with arrow_parse zone data_type target w
    = match parser_lookup PARSER_KEY_TO_DICT data_type zone with
      | Raise e =>
          (Raised (mk_tb Lookup e), mk_world (S (reads w)) (sink_calls w) (out w))
      | Ok p =>
          match p (if str_in data_type ["exchange"; "exchangeForecast"]
                   then split zone "->" else [zone]) target with
          | Raise e =>
              (Raised (mk_tb Fetch e), mk_world (S (reads w)) (sink_calls w) (out w))
          | Ok res =>
              (Returned (target, clock (reads w), res),
               mk_world (S (reads w)) (sink_calls w) (out w))
          end
      end
    /\ run_with arrow_parse zone data_type target w
       = run_with arrow_parse' zone data_type target w
    /\ (forall dts M m last first w0,
           py_max dts = Ok M ->
           to_UTC (arrow_get_datetime M) = Ok last ->
           py_min dts = Ok m ->
           to_UTC (arrow_get_datetime m) = Ok first ->
           assess clock dts target w0
           = if two_hours <? clock (reads w0) - a_wall last
             then (Returned (mk_report first last TooOld),
                   mk_world (S (reads w0)) (sink_calls w0) (out w0))
             else (Returned (mk_report first last
                               (FreshEnough (utc_arrow (clock (S (reads w0)))))),
                   mk_world (S (S (reads w0))) (sink_calls w0) (out w0)))
    /\ (forall t start res w1 dts rows df0 df M m last first,
           fetch_with arrow_parse zone data_type target w
           = (Returned (t, start, res), w1) ->
           truthy res = true ->
           normalize res = Ok (Batch dts rows df0) ->
           set_index df0 "datetime" = Ok df ->
           sink_answer (sink_calls w) df (series_target data_type zone) = None ->
           py_max (native_values dts) = Ok M ->
           to_UTC (arrow_get_datetime M) = Ok last ->
           py_min (native_values dts) = Ok m ->
           to_UTC (arrow_get_datetime m) = Ok first ->
           let stale := two_hours <? clock (S (reads w1)) - a_wall last in
           let warning :=
             if stale then TooOld
             else FreshEnough (utc_arrow (clock (S (S (reads w1))))) in
           let n := if stale then S (S (reads w1)) else S (S (S (reads w1))) in
           t = target
           /\ run_with arrow_parse zone data_type target w
              = (Returned VNone,
                 mk_world (if verbose then n else S n)
                   (sink_calls w ++ [mk_call df (series_target data_type zone)])%list
                   (out w
                    ++ [if verbose
                        then VerboseReport res (clock (reads w1) - start) first last
                               warning
                        else Fetched (clock n) data_type zone])%list))
    /\ (forall dts t w0 rep w1,
           assess clock dts t w0 = (Returned rep, w1) ->
           (max_dt_warning rep = NoWarning <-> truthy t = true)
           /\ (truthy t = true -> w1 = w0)
           /\ (truthy t = false -> (reads w0 < reads w1)%nat))
    /\ (forall dts w0, assess clock dts target w0 = assess clock dts VNone w0)
    /\ ((forall p args,
            parser_lookup PARSER_KEY_TO_DICT data_type zone = Ok p ->
            p args target = p args VNone) ->
        run_with arrow_parse zone data_type target w
        = run_with arrow_parse zone data_type VNone w).
Proof.
  intros zone data_type target w Ht.
  assert (A : forall dts M m last first w0,
             py_max dts = Ok M ->
             to_UTC (arrow_get_datetime M) = Ok last ->
             py_min dts = Ok m ->
             to_UTC (arrow_get_datetime m) = Ok first ->
             assess clock dts target w0
             = if two_hours <? clock (reads w0) - a_wall last
               then (Returned (mk_report first last TooOld),
                     mk_world (S (reads w0)) (sink_calls w0) (out w0))
               else (Returned (mk_report first last
                                 (FreshEnough (utc_arrow (clock (S (reads w0)))))),
                     mk_world (S (S (reads w0))) (sink_calls w0) (out w0))).
  { intros dts M m last first w0 EM EL Em EF.
    rewrite (assess_computed clock dts target w0 M m last first EM EL Em EF), Ht.
    destruct (to_UTC_returns _ _ EL) as [-> _].
    unfold micros_between. cbn [utc_arrow a_wall a_offset].
    now rewrite !Z.sub_0_r. }
  split; [now apply fetch_falsy |].
  split; [| split; [exact A | split; [| split; [| split]]]].
  - rewrite !run_of_body, !body_unfold. now rewrite !(fetch_falsy _ _ _ _ _ Ht).
  - intros t start res w1 dts rows df0 df M m last first E Hres N I Hsink EM EL Em EF
      stale warning n.
    pose proof (proj2 (fetch_rebinds _ _ _ _ _ _ _ _ _ E) Ht) as ->.
    split; [reflexivity |].
    erewrite run_on_batch by eassumption.
    rewrite (A _ _ _ _ _ _ EM EL Em EF). cbn [reads sink_calls out].
    unfold n, warning, stale, conclude.
    destruct (two_hours <? clock (S (reads w1)) - a_wall last);
      destruct verbose; reflexivity.
  - intros dts t w0 rep w1. apply assess_warning.
  - intros dts w0. now apply assess_by_truth.
  - intros Hp. rewrite !run_of_body, !body_unfold.
    rewrite (fetch_falsy _ _ _ _ _ Ht), (fetch_falsy _ _ _ VNone _ eq_refl).
    destruct (parser_lookup PARSER_KEY_TO_DICT data_type zone) as [p | e] eqn:L;
      [| reflexivity].
    rewrite (Hp p _ eq_refl).
    match goal with |- context [p ?a ?b] => destruct (p a b) as [res | e] end;
      [| reflexivity].
    destruct (truthy res); [| reflexivity].
    now rewrite (process_by_truth _ _ target VNone _ _ _ Ht).
Qed.

End LivePoll.

(** * Concrete runs *)

(** The scenario of the specification: two records for production in AT
    are written as two rows to the series "production", and the report has
    the first and the last datetime in UTC. *)
Example production_scenario :
  parse_to_influx registry no_arrow ticking accepting true "AT" "production" VNone w0
  = (Returned VNone,
     mk_world 3
       [mk_call
          (mk_df (Some [Some (VDatetime T0); Some (VDatetime T1)]) ["value"]
             [[("value", VInt 100)]; [("value", VInt 110)]])
          "production"]
       [VerboseReport two_records 1000000
          (utc_arrow 1530482400000000) (utc_arrow 1530628200000000) TooOld]).
Proof. reflexivity. Qed.

(** An exception at each stage ends up as a printed traceback. *)
Example unparsable_target_is_absorbed :
  job "production" (VStr "yesterday") w0
  = (Returned VNone,
     mk_world 1 [] [TracebackAt (ticking 0) (mk_tb Resolve (OtherError "ParserError"))]).
Proof. reflexivity. Qed.

Example unknown_capability_is_absorbed :
  job "exchange" VNone w0
  = (Returned VNone, mk_world 2 [] [TracebackAt (ticking 1) (mk_tb Lookup KeyError)]).
Proof. reflexivity. Qed.

Example refused_write_is_absorbed :
  parse_to_influx registry no_arrow ticking
    (fun _ _ _ => Some (OtherError "InfluxDBClientError")) false
    "AT" "production" VNone w0
  = (Returned VNone,
     mk_world 3
       [mk_call
          (mk_df (Some [Some (VDatetime T0); Some (VDatetime T1)]) ["value"]
             [[("value", VInt 100)]; [("value", VInt 110)]])
          "production"]
       [TracebackAt (ticking 2) (mk_tb Write (OtherError "InfluxDBClientError"))]).
Proof. reflexivity. Qed.

(** A naive and an aware datetime cannot be ordered: [max] raises after
    the write, and the guard prints the traceback. *)
Example mixed_awareness_has_no_maximum :
  py_max [T0; T1_naive] = Raise TypeError
  /\ parse_to_influx (fun _ => Some (fun _ => Some (answers mixed_records)))
       no_arrow ticking accepting false "AT" "production" VNone w0
     = (Returned VNone,
        mk_world 3
          [mk_call
             (mk_df (Some [Some (VDatetime T0); Some (VDatetime T1_naive)]) [] [[]; []])
             "production"]
          [TracebackAt (ticking 2) (mk_tb Validate TypeError)]).
Proof. split; reflexivity. Qed.

(** C4 as stated fails for a batch that has a naive datetime next to an
    aware one: every record has a native datetime and the batch is
    normalized and written, but [max] raises [TypeError] and there is no
    report. *)
Lemma mixed_batch_has_no_report :
  truthy mixed_records = true
  /\ forallb has_native_datetime (to_res_list mixed_records) = true
  /\ normalize mixed_records
     = Ok (Batch [VDatetime T0; VDatetime T1_naive]
             [[("datetime", VDatetime T0)]; [("datetime", VDatetime T1_naive)]]
             (pd_DataFrame
                [[("datetime", VDatetime T0)]; [("datetime", VDatetime T1_naive)]]))
  /\ native_values [VDatetime T0; VDatetime T1_naive] = [T0; T1_naive]
  /\ assess ticking [T0; T1_naive] VNone w0 = (Raised (mk_tb Validate TypeError), w0)
  /\ (forall rep w', assess ticking [T0; T1_naive] VNone w0 <> (Returned rep, w')).
Proof.
  repeat split; try reflexivity. intros rep w' H. discriminate.
Qed.

(** Two datetimes of one zone are ordered by their wall clocks: across a
    change of offset the one reported as last (02:30+02:00, 00:30 UTC) is
    earlier than the one reported as first (02:10+01:00, 01:10 UTC). *)
Example wall_clock_order_across_a_fold :
  py_max [before_fold; after_fold] = Ok before_fold
  /\ py_min [before_fold; after_fold] = Ok after_fold
  /\ assess ticking [before_fold; after_fold] (VDatetime T1) w0
     = (Returned (mk_report (utc_arrow 1540689000000000) (utc_arrow 1540686600000000)
                    NoWarning),
        w0).
Proof. repeat split; reflexivity. Qed.

Example fold_is_ordered_by_wall_clock :
  orders_by wall [before_fold; after_fold]
  /\ ~ orders_by instant [before_fold; after_fold].
Proof.
  split; [now apply shares_tzinfo_orders |]. intros H.
  destruct (H before_fold after_fold) as [G _]; [now left | right; now left |].
  vm_compute in G. discriminate.
Qed.

(** An instant before the year 1 cannot be converted to UTC. *)
Example no_report_before_year_one :
  assess ticking [year_one] VNone w0 = (Raised (mk_tb Validate OverflowError), w0).
Proof. reflexivity. Qed.

(** A single empty mapping is an empty result: the run reports "parser
    returned nothing" before any datetime is looked at. *)
Example empty_mapping_is_reported_as_no_data :
  truthy (VDict []) = false
  /\ fetch registry no_arrow ticking "AT" "price" VNone w0
     = (Returned (VNone, ticking 0, VDict []), mk_world 1 [] [])
  /\ job "price" VNone w0
     = (Returned VNone, mk_world 1 [] [ParserReturnedNothing (VDict [])]).
Proof. repeat split; reflexivity. Qed.

Lemma malformed_batch_is_discarded_witness :
  has_malformed string_datetime = true
  /\ truthy string_datetime = true
  /\ job "consumption" VNone w0
     = (Returned VNone,
        mk_world 3 []
          [TracebackAt (ticking 2) (mk_tb Normalize AssertionError)]).
Proof.
  split; [reflexivity |]. split; [reflexivity |].
  exact (proj1 (proj2 (malformed_batch_is_discarded registry no_arrow ticking accepting
                         false "AT" "consumption" VNone w0 VNone (ticking 0)
                         string_datetime (mk_world 1 [] []) eq_refl eq_refl)
                  eq_refl)).
Defined.

(** C3 as stated fails when two key paths of a record join to the same
    key: the record has a native datetime, and [flatten] raises. *)
Lemma duplicated_path_is_refused :
  forallb has_native_datetime (to_res_list clash) = true
  /\ normalize clash = Raise ValueError
  /\ job "generationForecast" VNone w0
     = (Returned VNone,
        mk_world 3 [] [TracebackAt (ticking 2) (mk_tb Normalize ValueError)]).
Proof. repeat split; reflexivity. Qed.

Lemma normalize_valid_batch_witness :
  forallb has_native_datetime (to_res_list two_records) = true
  /\ forallb distinct_paths (to_res_list two_records) = true
  /\ exists dts rows,
       normalize two_records = Ok (Batch dts rows (pd_DataFrame rows))
       /\ length rows = 2%nat.
Proof.
  split; [reflexivity |]. split; [reflexivity |].
  destruct (normalize_valid_batch two_records eq_refl eq_refl)
    as (dts & rows & E & _ & L & _).
  exists dts, rows. split; [exact E | exact L].
Defined.

Lemma freshness_report_witness :
  [T0; T1] <> []
  /\ orders_by instant [T0; T1]
  /\ assess ticking [T0; T1] VNone w0
     = (Returned (mk_report (utc_arrow 1530482400000000)
                    (utc_arrow 1530628200000000) TooOld),
        mk_world 1 [] []).
Proof.
  assert (Hne : [T0; T1] <> []) by discriminate.
  assert (Hk : orders_by instant [T0; T1]) by now apply fixed_offsets_orders.
  split; [exact Hne |]. split; [exact Hk |].
  destruct (freshness_report ticking instant [T0; T1] VNone w0 Hne Hk)
    as (m & M & Em & EM & _ & _ & Hr & _).
  vm_compute in Em. vm_compute in EM.
  assert (Hm : m = T0) by (inversion Em; reflexivity).
  assert (HM : M = T1) by (inversion EM; reflexivity).
  subst m M.
  destruct (Hr eq_refl) as (_ & _ & _ & Hf).
  apply (proj1 (Hf eq_refl)). vm_compute. reflexivity.
Defined.

Lemma empty_result_is_a_noop_witness :
  truthy (VDict []) = false
  /\ job "price" VNone w0
     = parse_to_influx_body registry no_arrow ticking accepting false "AT" "price" VNone w0.
Proof.
  split; [reflexivity |].
  exact (proj2 (empty_result_is_a_noop registry no_arrow ticking accepting false
                  "AT" "price" VNone w0 VNone (ticking 0) (VDict [])
                  (mk_world 1 [] []) eq_refl eq_refl)).
Defined.

Lemma falsy_target_is_a_live_poll_witness :
  truthy (VStr "") = false
  /\ fetch registry no_arrow ticking "AT" "production" (VStr "") w0
     = (Returned (VStr "", ticking 0, two_records), mk_world 1 [] [])
  /\ parse_to_influx registry no_arrow ticking accepting true "AT" "production"
       (VStr "") w0
     = (Returned VNone,
        mk_world 3
          [mk_call
             (mk_df (Some [Some (VDatetime T0); Some (VDatetime T1)]) ["value"]
                [[("value", VInt 100)]; [("value", VInt 110)]])
             "production"]
          [VerboseReport two_records 1000000
             (utc_arrow 1530482400000000) (utc_arrow 1530628200000000) TooOld])
  /\ job "production" (VStr "") w0 = job "production" VNone w0.
Proof.
  split; [reflexivity |].
  destruct (falsy_target_is_a_live_poll registry no_arrow no_arrow ticking accepting
              true "AT" "production" (VStr "") w0 eq_refl)
    as (F & _ & _ & R & _).
  split; [exact F |]. split.
  - exact (proj2 (R (VStr "") (ticking 0) two_records (mk_world 1 [] [])
                    [VDatetime T0; VDatetime T1]
                    (map leaves_of (to_res_list two_records))
                    (pd_DataFrame (map leaves_of (to_res_list two_records)))
                    (mk_df (Some [Some (VDatetime T0); Some (VDatetime T1)]) ["value"]
                       [[("value", VInt 100)]; [("value", VInt 110)]])
                    T1 T0 (utc_arrow 1530628200000000) (utc_arrow 1530482400000000)
                    eq_refl eq_refl eq_refl eq_refl eq_refl eq_refl eq_refl eq_refl
                    eq_refl)).
  - refine (proj2 (proj2 (proj2 (proj2 (proj2 (proj2
              (falsy_target_is_a_live_poll registry no_arrow no_arrow ticking accepting
                 false "AT" "production" (VStr "") w0 eq_refl)))))) _).
    intros p args H. vm_compute in H. inversion H. reflexivity.
Defined.

Lemma cancel_on_failure_disables_the_job_witness :
  NoDup (map job_id (jobs s0))
  /\ fst (catch_exceptions ticking true unreachable_source tt (wld s0))
     = Returned VCancelJob
  /\ exists s',
       _run_job ticking fragile s0 = (Returned tt, s')
       /\ jobs s' = [steady].
Proof.
  assert (Hnd : NoDup (map job_id (jobs s0))).
  { simpl. repeat constructor; simpl; intuition discriminate. }
  split; [exact Hnd |].
  destruct (cancel_on_failure_disables_the_job ticking unit unreachable_source tt fragile s0
              (mk_tb Fetch (OtherError "ConnectionError")) w0 eq_refl eq_refl Hnd)
    as (G & (s' & R & J & _) & _).
  split; [exact G |]. exists s'. split; [exact R | exact J].
Defined.

(** A failing run under the default policy: the traceback is printed with
    the time, [None] is returned, and the job keeps its entry. *)
Lemma guard_absorbs_every_exception_witness :
  unreachable_source tt w0
  = (Raised (mk_tb Fetch (OtherError "ConnectionError")), w0)
  /\ catch_exceptions ticking false unreachable_source tt w0
     = (Returned VNone,
        mk_world 1 [] [TracebackAt (ticking 0) (mk_tb Fetch (OtherError "ConnectionError"))]).
Proof.
  split; [reflexivity |].
  exact (proj1 (proj1 (proj2 (guard_absorbs_every_exception registry no_arrow ticking
                                accepting false unit unreachable_source false tt w0))
                  (mk_tb Fetch (OtherError "ConnectionError")) w0 eq_refl)).
Defined.

Lemma guard_return_transparent_witness :
  fst (catch_exceptions ticking false unreachable_source tt w0) = Returned VNone
  /\ catch_exceptions ticking true (fun _ : unit => ret (VInt 7)) tt w0
     = (Returned (VInt 7), w0).
Proof.
  split.
  - exact (proj1 (proj2 (guard_return_transparent ticking unit unreachable_source tt w0)
                    (mk_tb Fetch (OtherError "ConnectionError")) w0 eq_refl)).
  - exact (proj1 (guard_return_transparent ticking unit (fun _ => ret (VInt 7)) tt w0)
             true (VInt 7) w0 eq_refl).
Defined.

Lemma min_max_never_see_an_empty_batch_witness :
  truthy two_records = true
  /\ native_values [VDatetime T0; VDatetime T1] <> []
  /\ length (native_values [VDatetime T0; VDatetime T1]) = 2%nat.
Proof.
  split; [reflexivity |].
  exact (proj1 (min_max_never_see_an_empty_batch registry no_arrow ticking accepting
                  false "AT" "production" VNone w0)
           two_records [VDatetime T0; VDatetime T1]
           (map leaves_of (to_res_list two_records))
           (pd_DataFrame (map leaves_of (to_res_list two_records)))
           eq_refl eq_refl).
Defined.

(** A batch whose last datetime is an hour old is not reported too old; one
    that is three hours old is (the production scenario above). *)
Example one_hour_old_is_fresh :
  assess (fun n => ticking n - 7200000000) [T0; T1] VNone w0
  = (Returned (mk_report (utc_arrow 1530482400000000) (utc_arrow 1530628200000000)
                 (FreshEnough (utc_arrow 1530631801000000))),
     mk_world 2 [] []).
Proof. reflexivity. Qed.

(** With a target given, a batch that is three hours old gets no warning. *)
Example historical_query_has_no_warning :
  assess ticking [T0; T1] (VDatetime T1) w0
  = (Returned (mk_report (utc_arrow 1530482400000000) (utc_arrow 1530628200000000)
                 NoWarning),
     w0).
Proof. reflexivity. Qed.

(** * Further properties of the code *)

(** ** The positional arguments of the fetch capability (lines 79-82) *)

Module SplitFacts.

Lemma append_nil_r s : s ++ "" = s.
Proof. induction s as [| c s IH]; simpl; [reflexivity | now rewrite IH]. Qed.

Lemma append_assoc a b c : (a ++ b) ++ c = a ++ (b ++ c).
Proof. induction a as [| x a IH]; simpl; [reflexivity | now rewrite IH]. Qed.

(** [sep.join(parts)] for the separator "->". *)
Fixpoint join_arrow (parts : list string) : string :=
  match parts with
  | [] => ""
  | [p] => p
  | p :: rest => p ++ "->" ++ join_arrow rest
  end.

(** The string begins with "->". *)
Definition starts_with_arrow (s : string) : bool :=
  match s with
  | String c (String c' _) => Ascii.eqb c "-" && Ascii.eqb c' ">"
  | _ => false
  end.

Lemma prefix_empty s : String.prefix "" s = true.
Proof. destruct s; reflexivity. Qed.

Lemma prefix_arrow s : String.prefix "->" s = starts_with_arrow s.
Proof.
  destruct s as [| c [| c' r]]; cbn [String.prefix starts_with_arrow];
    try reflexivity.
  - destruct (ascii_dec "-" c); reflexivity.
  - destruct (ascii_dec "-" c) as [<- | N].
    + destruct (ascii_dec ">" c') as [<- | N'].
      * now rewrite prefix_empty.
      * symmetry. apply Ascii.eqb_neq. congruence.
    + symmetry. apply andb_false_intro1. apply Ascii.eqb_neq. congruence.
Qed.

Lemma str_contains_cons needle c s :
  str_contains needle (String c s)
  = String.prefix needle (String c s) || str_contains needle s.
Proof. reflexivity. Qed.

(** Appending after a piece that holds no "->" creates none that starts
    inside the piece. *)
Lemma no_arrow_across c a b :
  str_contains "->" (String c a) = false ->
  String.prefix "->" (String c (a ++ "->" ++ b)) = false.
Proof.
  intros H. rewrite str_contains_cons in H.
  apply orb_false_elim in H. destruct H as [H _].
  rewrite prefix_arrow in *. destruct a as [| c' a]; cbn [starts_with_arrow append] in *.
  - destruct (Ascii.eqb c "-"); reflexivity.
  - exact H.
Qed.

Lemma split_go_arrow cur b :
  split_go "->" 0 cur (String "-" (String ">" b)) = cur :: split_go "->" 0 "" b.
Proof. cbn [split_go]. rewrite prefix_arrow. reflexivity. Qed.

Lemma split_go_step c s cur :
  starts_with_arrow (String c s) = false ->
  split_go "->" 0 cur (String c s) = split_go "->" 0 (cur ++ String c "") s.
Proof. intros P. cbn [split_go]. now rewrite prefix_arrow, P. Qed.

Lemma split_go_piece a : forall cur b,
  str_contains "->" a = false ->
  split_go "->" 0 cur (a ++ "->" ++ b) = (cur ++ a) :: split_go "->" 0 "" b.
Proof.
  induction a as [| c a IH]; intros cur b H.
  - rewrite append_nil_r. apply split_go_arrow.
  - pose proof (no_arrow_across c a b H) as P. rewrite prefix_arrow in P.
    change (String c a ++ "->" ++ b) with (String c (a ++ "->" ++ b)).
    rewrite (split_go_step _ _ _ P), IH.
    + rewrite append_assoc. reflexivity.
    + rewrite str_contains_cons in H. apply orb_false_elim in H. tauto.
Qed.

Lemma split_go_whole s : forall cur,
  str_contains "->" s = false -> split_go "->" 0 cur s = [cur ++ s].
Proof.
  induction s as [| c s IH]; intros cur H.
  - now rewrite append_nil_r.
  - rewrite str_contains_cons in H. apply orb_false_elim in H. destruct H as [P H].
    rewrite prefix_arrow in P. rewrite (split_go_step _ _ _ P), IH by exact H.
    rewrite append_assoc. reflexivity.
Qed.

Lemma split_go_nonempty sep s : forall skip cur, split_go sep skip cur s <> [].
Proof.
  induction s as [| c s IH]; intros skip cur; cbn [split_go]; [discriminate |].
  destruct skip; [| apply IH].
  destruct (String.prefix sep (String c s)); [discriminate | apply IH].
Qed.

(** Joining the pieces of a split gives the string back. *)
Lemma join_split_go n : forall s cur,
  (String.length s <= n)%nat -> join_arrow (split_go "->" 0 cur s) = cur ++ s.
Proof.
  induction n as [| n IH]; intros s cur Hn.
  - destruct s; [| simpl in Hn; lia]. cbn [split_go join_arrow].
    now rewrite append_nil_r.
  - destruct s as [| c s]; [cbn [split_go join_arrow]; now rewrite append_nil_r |].
    destruct (starts_with_arrow (String c s)) eqn:P.
    + destruct s as [| c' r]; [discriminate |]. cbn [starts_with_arrow] in P.
      apply andb_prop in P. destruct P as [Pc Pc'].
      apply Ascii.eqb_eq in Pc. apply Ascii.eqb_eq in Pc'. subst.
      rewrite split_go_arrow.
      pose proof (split_go_nonempty "->" r 0%nat "") as NE.
      assert (J : join_arrow (split_go "->" 0 "" r) = "" ++ r).
      { apply IH. cbn [String.length] in Hn. lia. }
      destruct (split_go "->" 0 "" r) as [| x l]; [congruence |].
      change (join_arrow (cur :: x :: l)) with (cur ++ "->" ++ join_arrow (x :: l)).
      rewrite J. reflexivity.
    + rewrite (split_go_step _ _ _ P), IH by (cbn [String.length] in Hn; lia).
      rewrite append_assoc. reflexivity.
Qed.

End SplitFacts.
Import SplitFacts.

(** X1.  Splitting a zone that joins pieces free of "->" with "->" gives
    back exactly those pieces: a pair "A->B" yields the two endpoints, a
    plain zone yields itself alone. *)
Theorem split_of_joined_zone :
  forall parts,
    parts <> [] ->
    forallb (fun p => negb (str_contains "->" p)) parts = true ->
    split (join_arrow parts) "->" = parts.
Proof.
  unfold split. induction parts as [| p rest IH]; [congruence |]. intros _ H.
  cbn [forallb] in H. apply andb_prop in H. destruct H as [Hp Hrest].
  apply negb_true_iff in Hp. destruct rest as [| q rest].
  - cbn [join_arrow]. now rewrite split_go_whole.
  - change (join_arrow (p :: q :: rest)) with (p ++ "->" ++ join_arrow (q :: rest)).
    rewrite split_go_piece by exact Hp. cbn [append]. f_equal.
    apply IH; [discriminate | exact Hrest].
Qed.

Lemma split_of_joined_zone_witness :
  forallb (fun p => negb (str_contains "->" p)) ["NO-NO3"; "SE"] = true
  /\ split "NO-NO3->SE" "->" = ["NO-NO3"; "SE"].
Proof.
  split; [reflexivity |].
  exact (split_of_joined_zone ["NO-NO3"; "SE"] ltac:(discriminate) eq_refl).
Defined.

(** X2.  Whatever the zone, splitting it on "->" gives at least one piece,
    and joining the pieces with "->" gives the zone back: no character is
    lost or added. *)
Theorem split_loses_nothing :
  forall zone, split zone "->" <> [] /\ join_arrow (split zone "->") = zone.
Proof.
  intros zone. split; [apply split_go_nonempty |].
  unfold split. now rewrite (join_split_go (String.length zone) zone "").
Qed.

(** ** What a run leaves behind *)

(** The frame that is written for a fetch result, when there is one:
    lines 90-114. *)
Definition frame_of (res : pyval) : option DataFrame :=
  match normalize res with
  | Ok (Batch _ _ df) =>
      match set_index df "datetime" with
      | Ok df' => Some df'
      | Raise _ => None
      end
  | _ => None
  end.

(** The calls a run makes to the sink, as a function of the fetch result. *)
Definition writes_of (zone data_type : string) (res : pyval) : list write_call :=
  if truthy res then
    match frame_of res with
    | Some df => [mk_call df (series_target data_type zone)]
    | None => []
    end
  else [].

Section RunEffects.

Variable PARSER_KEY_TO_DICT : string -> option (string -> option parser).
Variable arrow_parse : pyval -> result Arrow.
Variable clock : nat -> Z.
Variable sink_answer : list write_call -> DataFrame -> string -> option pyexn.
Variable verbose : bool.

Local Abbreviation fetch := (fetch PARSER_KEY_TO_DICT arrow_parse clock).
Local Abbreviation process := (process clock sink_answer verbose).
Local Abbreviation body :=
  (parse_to_influx_body PARSER_KEY_TO_DICT arrow_parse clock sink_answer verbose).
Local Abbreviation run :=
  (parse_to_influx PARSER_KEY_TO_DICT arrow_parse clock sink_answer verbose).

Lemma process_sink zone data_type t start res w1 :
  sink_calls (snd (process zone data_type t start res w1))
  = (sink_calls w1
     ++ match frame_of res with
        | Some df => [mk_call df (series_target data_type zone)]
        | None => []
        end)%list.
Proof.
  rewrite process_computed. unfold frame_of. cbn zeta.
  destruct (normalize res) as [[| dts rows df] | e]; simpl;
    try (now rewrite app_nil_r).
  destruct (set_index df "datetime") as [df' | e]; simpl;
    [| now rewrite app_nil_r].
  destruct (sink_answer (sink_calls w1) df' (series_target data_type zone));
    [reflexivity |].
  destruct (assess clock (native_values dts) t _) as [[report | tb] w4] eqn:A;
    destruct (assess_quiet _ _ _ _ _ _ A) as [Hs _]; simpl in *.
  - unfold conclude. destruct verbose; simpl; exact Hs.
  - exact Hs.
Qed.

Lemma run_sink zone data_type target w :
  sink_calls (snd (run zone data_type target w))
  = sink_calls (snd (body zone data_type target w)).
Proof.
  rewrite run_of_body.
  destruct (body zone data_type target w) as [[v | tb] w']; reflexivity.
Qed.

(** X3.  What a run hands to the sink is decided by the fetch result
    alone: earlier calls stay, and the run adds the one frame built from a
    truthy result under the series name of lines 115-118, or nothing.  The
    clock, [verbose], the target, the sink's answer and the freshness of
    the data play no part; a run whose fetch raises adds nothing. *)
Theorem sink_calls_of_a_run :
  forall zone data_type target w,
    (forall t start res w1,
        fetch zone data_type target w = (Returned (t, start, res), w1) ->
        sink_calls (snd (run zone data_type target w))
        = (sink_calls w ++ writes_of zone data_type res)%list)
    /\ (forall tb w1,
           fetch zone data_type target w = (Raised tb, w1) ->
           sink_calls (snd (run zone data_type target w)) = sink_calls w).
Proof.
  intros zone data_type target w. split.
  - intros t start res w1 E. destruct (fetch_frame _ _ _ _ _ _ _ _ _ E) as [Hs _].
    rewrite run_sink, body_unfold, E. unfold writes_of.
    destruct (truthy res).
    + now rewrite process_sink, Hs.
    + simpl. now rewrite Hs, app_nil_r.
  - intros tb w1 E. destruct (fetch_frame _ _ _ _ _ _ _ _ _ E) as [Hs _].
    rewrite run_sink, body_unfold, E. exact Hs.
Qed.

Lemma process_out zone data_type t start res w1 :
  (exists l, process zone data_type t start res w1
             = (Returned VNone, snd (process zone data_type t start res w1))
             /\ out (snd (process zone data_type t start res w1)) = (out w1 ++ [l])%list)
  \/ (exists tb, fst (process zone data_type t start res w1) = Raised tb
                 /\ out (snd (process zone data_type t start res w1)) = out w1).
Proof.
  rewrite process_computed. cbn zeta.
  destruct (normalize res) as [[| dts rows df] | e]; simpl.
  - left. eexists. split; reflexivity.
  - destruct (set_index df "datetime") as [df' | e]; simpl.
    + destruct (sink_answer (sink_calls w1) df' (series_target data_type zone)); simpl.
      * right. eexists. split; reflexivity.
      * destruct (assess clock (native_values dts) t _) as [[report | tb] w4] eqn:A;
          destruct (assess_quiet _ _ _ _ _ _ A) as [_ Ho]; simpl in *.
        -- left. unfold conclude. destruct verbose; simpl; rewrite Ho;
             eexists; split; reflexivity.
        -- right. eexists. split; [reflexivity | exact Ho].
    + right. eexists. split; reflexivity.
  - right. eexists. split; reflexivity.
Qed.

(** X4.  Every run of the decorated job prints exactly one line, whatever
    happens in it: the no-data message, the missing-datetime message, the
    report or the confirmation, or the traceback of the exception. *)
Theorem one_line_per_run :
  forall zone data_type target w,
    exists l,
      out (snd (parse_to_influx PARSER_KEY_TO_DICT arrow_parse clock sink_answer verbose
                  zone data_type target w))
      = (out w ++ [l])%list.
Proof.
  intros zone data_type target w. rewrite run_of_body, body_unfold.
  destruct (fetch zone data_type target w) as [[[[t start] res] | tb] w1] eqn:E;
    destruct (fetch_frame _ _ _ _ _ _ _ _ _ E) as [_ Ho].
  - destruct (truthy res).
    + destruct (process_out zone data_type t start res w1)
        as [(l & P & O) | (tb & P & O)].
      * rewrite P. exists l. simpl. now rewrite O, Ho.
      * destruct (process zone data_type t start res w1) as [[v | tb'] w'];
          simpl in *; [discriminate |].
        eexists. rewrite O, Ho. reflexivity.
    + eexists. simpl. rewrite Ho. reflexivity.
  - eexists. simpl. rewrite Ho. reflexivity.
Qed.

End RunEffects.

(** ** The frame that is written *)

Module FrameFacts.

Lemma add_columns_keeps k ks : forall cols,
  str_in k cols = true -> str_in k (add_columns cols ks) = true.
Proof.
  induction ks as [| x ks IH]; intros cols H; simpl; [exact H |].
  apply IH. destruct (str_in x cols); [exact H |].
  rewrite str_in_app, H. reflexivity.
Qed.

Lemma add_columns_adds k ks : forall cols,
  In k ks -> str_in k (add_columns cols ks) = true.
Proof.
  induction ks as [| x ks IH]; intros cols H; [destruct H |].
  destruct H as [-> | H]; simpl.
  - apply add_columns_keeps. destruct (str_in k cols) eqn:E; [exact E |].
    rewrite str_in_app. unfold str_in at 2. simpl.
    rewrite String.eqb_refl. apply orb_true_r.
  - now apply IH.
Qed.

Lemma columns_of_keeps k rows : forall cols,
  str_in k cols = true -> str_in k (columns_of cols rows) = true.
Proof.
  induction rows as [| r rows IH]; intros cols H; simpl; [exact H |].
  apply IH. now apply add_columns_keeps.
Qed.

Lemma lookup_in_keys k (row : FlatRow) v : lookup k row = Some v -> In k (map fst row).
Proof.
  induction row as [| [k' x] row IH]; [discriminate |].
  rewrite lookup_cons. destruct (String.eqb_spec k k') as [-> | _]; intros H.
  - now left.
  - right. now apply IH.
Qed.

(** The column of the index is gone from the columns and from the rows. *)
Lemma str_in_filter_out k cols :
  str_in k (filter (fun c => negb (String.eqb k c)) cols) = false.
Proof.
  unfold str_in. induction cols as [| c cols IH]; [reflexivity |]. cbn [filter].
  destruct (String.eqb k c) eqn:E; cbn [negb]; [exact IH |].
  cbn [existsb]. now rewrite E.
Qed.

Lemma lookup_drop_key k (row : FlatRow) : lookup k (drop_key k row) = None.
Proof.
  unfold drop_key. induction row as [| [k' v] row IH]; [reflexivity |].
  cbn [filter fst]. destruct (String.eqb k k') eqn:E; cbn [negb]; [exact IH |].
  now rewrite lookup_cons, E.
Qed.

(** A cell that holds a value other than [None] is a cell of the frame. *)
Lemma lookup_cells_of k (row : FlatRow) v :
  lookup k row = Some v -> is_None v = false -> lookup k (cells_of row) = Some v.
Proof.
  unfold cells_of. induction row as [| [k' x] row IH]; [discriminate |].
  rewrite lookup_cons. cbn [filter snd].
  destruct (String.eqb k k') eqn:E.
  - intros H Hv. inversion H; subst x. rewrite Hv. cbn [negb].
    now rewrite lookup_cons, E.
  - intros H Hv. destruct (is_None x); cbn [negb]; [now apply IH |].
    rewrite lookup_cons, E. now apply IH.
Qed.

(** The flattened rows of native records carry the records' datetimes. *)
Lemma datetime_column l :
  forallb has_native_datetime l = true ->
  exists dts,
    datetimes_of l = Ok dts
    /\ map (lookup "datetime") (map cells_of (map leaves_of l)) = map Some dts.
Proof.
  induction l as [| e l IH]; intros H.
  - exists []. split; reflexivity.
  - cbn [forallb] in H. apply andb_prop in H. destruct H as [He Hl].
    destruct (IH Hl) as (dts & E & C).
    destruct (native_record _ He) as (d & dt & -> & Hdt).
    exists (VDatetime dt :: dts). split.
    + cbn [datetimes_of getitem]. now rewrite Hdt, E.
    + cbn [map leaves_of].
      now rewrite (lookup_cells_of _ _ _ (datetime_preserved _ _ Hdt) eq_refl), C.
Qed.

End FrameFacts.
Import FrameFacts.

(** X5.  For a truthy fetch result whose records all have a native
    datetime and pairwise distinct key paths, a frame is built and indexed
    without error: its row labels are the records' datetimes in order, it
    has one row per record (the cells of the flattened record without
    "datetime"), and "datetime" is no longer among its columns. *)
Theorem frame_of_valid_batch :
  forall res,
    truthy res = true ->
    forallb has_native_datetime (to_res_list res) = true ->
    forallb distinct_paths (to_res_list res) = true ->
    exists dts df,
      datetimes_of (to_res_list res) = Ok dts
      /\ frame_of res = Some df
      /\ df_index df = Some (map Some dts)
      /\ df_rows df
         = map (fun e => drop_key "datetime" (cells_of (leaves_of e))) (to_res_list res)
      /\ str_in "datetime" (df_columns df) = false
      /\ Forall (fun row => lookup "datetime" row = None) (df_rows df).
Proof.
  intros res Ht Hn Hd.
  destruct (datetime_column _ Hn) as (dts & E & C).
  destruct (datetimes_of_native _ Hn) as (dts' & E' & Hnat & _).
  rewrite E in E'. inversion E'; subst dts'.
  assert (Hcol : str_in "datetime" (columns_of [] (map leaves_of (to_res_list res))) = true).
  { pose proof (truthy_res_list _ Ht) as NE.
    destruct (to_res_list res) as [| e l]; [congruence |].
    cbn [forallb] in Hn. apply andb_prop in Hn. destruct Hn as [He _].
    destruct (native_record _ He) as (d & dt & -> & Hdt).
    cbn [map columns_of leaves_of]. apply columns_of_keeps, add_columns_adds.
    eapply lookup_in_keys. apply datetime_preserved. exact Hdt. }
  exists dts. eexists. split; [exact E |].
  unfold frame_of, normalize. rewrite E, Hnat, (flatten_all_distinct _ Hn Hd).
  unfold set_index. cbn [pd_DataFrame df_columns df_rows]. rewrite Hcol.
  split; [reflexivity |]. cbn [df_index df_rows df_columns].
  split; [now rewrite C |]. split; [now rewrite !map_map |].
  split; [apply str_in_filter_out |].
  apply Forall_map, Forall_forall. intros row _. apply lookup_drop_key.
Qed.

Lemma frame_of_valid_batch_witness :
  truthy two_records = true
  /\ exists df,
       frame_of two_records = Some df
       /\ df_index df = Some [Some (VDatetime T0); Some (VDatetime T1)].
Proof.
  split; [reflexivity |].
  destruct (frame_of_valid_batch two_records eq_refl eq_refl eq_refl)
    as (dts & df & E & F & I & _).
  exists df. split; [exact F |]. rewrite I. f_equal.
  vm_compute in E. inversion E. reflexivity.
Defined.

(** An empty list passes every datetime check but gives a frame without a
    "datetime" column: only the emptiness test of line 85 keeps
    [set_index] from raising [KeyError] on it. *)
Example empty_list_cannot_be_indexed :
  normalize (VList []) = Ok (Batch [] [] (pd_DataFrame []))
  /\ set_index (pd_DataFrame []) "datetime" = Raise KeyError.
Proof. split; reflexivity. Qed.

Section RunOutcomes.

Variable PARSER_KEY_TO_DICT : string -> option (string -> option parser).
Variable arrow_parse : pyval -> result Arrow.
Variable clock : nat -> Z.
Variable sink_answer : list write_call -> DataFrame -> string -> option pyexn.
Variable verbose : bool.

Local Abbreviation fetch := (fetch PARSER_KEY_TO_DICT arrow_parse clock).
Local Abbreviation run :=
  (parse_to_influx PARSER_KEY_TO_DICT arrow_parse clock sink_answer verbose).

(** X6.  When the sink refuses the frame, the run stops there: the frame
    was handed over once and is not handed over again, no freshness report
    is computed (the clock is read only for the traceback), and the one
    line printed is the traceback of the sink's exception. *)
Theorem refused_write_is_not_retried :
  forall zone data_type target w t start res w1 dts rows df0 df e,
    fetch zone data_type target w = (Returned (t, start, res), w1) ->
    truthy res = true ->
    normalize res = Ok (Batch dts rows df0) ->
    set_index df0 "datetime" = Ok df ->
    sink_answer (sink_calls w) df (series_target data_type zone) = Some e ->
    run zone data_type target w
    = (Returned VNone,
       mk_world (S (S (reads w1)))
         (sink_calls w ++ [mk_call df (series_target data_type zone)])%list
         (out w ++ [TracebackAt (clock (S (reads w1))) (mk_tb Write e)])%list).
Proof.
  intros zone data_type target w t start res w1 dts rows df0 df e E Ht N I A.
  destruct (fetch_frame _ _ _ _ _ _ _ _ _ E) as [Hs Ho].
  rewrite run_of_body, body_unfold, E, Ht, process_computed, N, I. cbn zeta.
  rewrite Hs, A, Ho. reflexivity.
Qed.

(** X7.  A run on a batch that is normalized and accepted by the sink,
    whose least datetime [m] and greatest datetime [M] are found by [min]
    and [max] and converted to UTC, returns [None], has handed the frame
    over once, and has printed one line: with [verbose] the report, whose
    elapsed time is the clock reading after the fetch minus the reading
    before the lookup and whose first and last datetimes are the instants
    of [m] and [M] in UTC; without [verbose] the confirmation with the data
    type and the zone.  The report carries a warning exactly when the
    target is falsy. *)
Theorem successful_run :
  forall zone data_type target w t start res w1 dts rows df0 df m M first last,
    fetch zone data_type target w = (Returned (t, start, res), w1) ->
    truthy res = true ->
    normalize res = Ok (Batch dts rows df0) ->
    set_index df0 "datetime" = Ok df ->
    sink_answer (sink_calls w) df (series_target data_type zone) = None ->
    py_min (native_values dts) = Ok m ->
    py_max (native_values dts) = Ok M ->
    to_UTC (arrow_get_datetime m) = Ok first ->
    to_UTC (arrow_get_datetime M) = Ok last ->
    first = utc_arrow (instant m) /\ last = utc_arrow (instant M)
    /\ exists warning n stamp,
         run zone data_type target w
         = (Returned VNone,
            mk_world n
              (sink_calls w ++ [mk_call df (series_target data_type zone)])%list
              (out w
               ++ [if verbose
                   then VerboseReport res (clock (reads w1) - start) first last warning
                   else Fetched stamp data_type zone])%list)
         /\ (truthy target = true -> warning = NoWarning)
         /\ (truthy target = false -> warning <> NoWarning).
Proof.
  intros zone data_type target w t start res w1 dts rows df0 df m M first last
    E Ht N I A Em EM EF EL.
  destruct (fetch_rebinds _ _ _ _ _ _ _ _ _ _ _ E) as [Htt _].
  split; [exact (proj1 (to_UTC_returns _ _ EF)) |].
  split; [exact (proj1 (to_UTC_returns _ _ EL)) |].
  erewrite run_on_batch by eassumption.
  rewrite (assess_computed clock _ t _ _ _ _ _ EM EL Em EF), Htt.
  destruct (truthy target).
  - exists NoWarning. unfold conclude.
    destruct verbose; cbn [reads sink_calls out]; [eexists _, 0 | eexists _, _];
      (split; [reflexivity | split; [now intros _ | discriminate]]).
  - match goal with |- context [two_hours <? ?x] => destruct (two_hours <? x) end.
    + exists TooOld. unfold conclude.
      destruct verbose; cbn [reads sink_calls out]; [eexists _, 0 | eexists _, _];
        (split; [reflexivity | split; [discriminate | intros _; discriminate]]).
    + eexists (FreshEnough _). unfold conclude.
      destruct verbose; cbn [reads sink_calls out]; [eexists _, 0 | eexists _, _];
        (split; [reflexivity | split; [discriminate | intros _; discriminate]]).
Qed.

End RunOutcomes.

(** ** More on the freshness report *)

Module ReportFacts.

(** Two datetimes can be compared exactly when both are aware or both
    are naive. *)
Lemma dt_gt_total a b :
  dt_gt a b = if Bool.eqb (is_aware a) (is_aware b)
              then Ok (if same_tzinfo a b then wall b <? wall a
                       else instant b <? instant a)
              else Raise TypeError.
Proof.
  unfold dt_gt, same_tzinfo, is_aware.
  destruct (tz a) as [[i oa] |], (tz b) as [[j ob] |]; cbn [Bool.eqb andb];
    try reflexivity.
  destruct (Nat.eqb i j); reflexivity.
Qed.

Lemma dt_lt_total a b :
  dt_lt a b = if Bool.eqb (is_aware a) (is_aware b)
              then Ok (if same_tzinfo a b then wall a <? wall b
                       else instant a <? instant b)
              else Raise TypeError.
Proof.
  unfold dt_lt, same_tzinfo, is_aware.
  destruct (tz a) as [[i oa] |], (tz b) as [[j ob] |]; cbn [Bool.eqb andb];
    try reflexivity.
  destruct (Nat.eqb i j); reflexivity.
Qed.

(** What [max] and [min] return is an element of the list. *)
Lemma max_from_In l : forall best M, max_from best l = Ok M -> In M (best :: l).
Proof.
  induction l as [| x l IH]; intros best M H; cbn [max_from] in H.
  - inversion H. now left.
  - destruct (dt_gt x best) as [[|] |]; [| | discriminate]; apply IH in H.
    + now right.
    + destruct H as [<- | H]; [now left | right; now right].
Qed.

Lemma min_from_In l : forall best m, min_from best l = Ok m -> In m (best :: l).
Proof.
  induction l as [| x l IH]; intros best m H; cbn [min_from] in H.
  - inversion H. now left.
  - destruct (dt_lt x best) as [[|] |]; [| | discriminate]; apply IH in H.
    + now right.
    + destruct H as [<- | H]; [now left | right; now right].
Qed.

Lemma py_max_In dts M : py_max dts = Ok M -> In M dts.
Proof. destruct dts as [| d l]; [discriminate | apply max_from_In]. Qed.

Lemma py_min_In dts m : py_min dts = Ok m -> In m dts.
Proof. destruct dts as [| d l]; [discriminate | apply min_from_In]. Qed.

(** A list that mixes naive and aware datetimes cannot be searched. *)
Lemma max_from_mixed l : forall a best,
  is_aware best = a ->
  forallb (fun x => Bool.eqb (is_aware x) a) l = false ->
  max_from best l = Raise TypeError.
Proof.
  induction l as [| x l IH]; intros a best Ha H; [discriminate |].
  cbn [forallb] in H. cbn [max_from]. rewrite dt_gt_total, Ha.
  destruct (Bool.eqb (is_aware x) a) eqn:Ex; [| reflexivity].
  cbn [andb] in H. apply Bool.eqb_prop in Ex.
  match goal with |- context [if ?c then max_from x l else _] => destruct c end;
    eapply IH; eauto.
Qed.

Lemma min_from_mixed l : forall a best,
  is_aware best = a ->
  forallb (fun x => Bool.eqb (is_aware x) a) l = false ->
  min_from best l = Raise TypeError.
Proof.
  induction l as [| x l IH]; intros a best Ha H; [discriminate |].
  cbn [forallb] in H. cbn [min_from]. rewrite dt_lt_total, Ha.
  destruct (Bool.eqb (is_aware x) a) eqn:Ex; [| reflexivity].
  cbn [andb] in H. apply Bool.eqb_prop in Ex.
  match goal with |- context [if ?c then min_from x l else _] => destruct c end;
    eapply IH; eauto.
Qed.

(** Any other list can. *)
Lemma max_from_same l : forall a best,
  is_aware best = a ->
  forallb (fun x => Bool.eqb (is_aware x) a) l = true ->
  exists M, max_from best l = Ok M.
Proof.
  induction l as [| x l IH]; intros a best Ha H; [now exists best |].
  cbn [forallb] in H. apply andb_prop in H. destruct H as [Ex H].
  cbn [max_from]. rewrite dt_gt_total, Ha, Ex. apply Bool.eqb_prop in Ex.
  match goal with |- context [if ?c then max_from x l else _] => destruct c end;
    eapply IH; eauto.
Qed.

Lemma min_from_same l : forall a best,
  is_aware best = a ->
  forallb (fun x => Bool.eqb (is_aware x) a) l = true ->
  exists m, min_from best l = Ok m.
Proof.
  induction l as [| x l IH]; intros a best Ha H; [now exists best |].
  cbn [forallb] in H. apply andb_prop in H. destruct H as [Ex H].
  cbn [min_from]. rewrite dt_lt_total, Ha, Ex. apply Bool.eqb_prop in Ex.
  match goal with |- context [if ?c then min_from x l else _] => destruct c end;
    eapply IH; eauto.
Qed.

End ReportFacts.
Import ReportFacts.

Section Reports.

Variable clock : nat -> Z.

Lemma assess_returned dts target w rep w' :
  assess clock dts target w = (Returned rep, w') ->
  exists M m,
    py_max dts = Ok M /\ py_min dts = Ok m
    /\ first_dt rep = utc_arrow (instant m)
    /\ last_dt rep = utc_arrow (instant M).
Proof.
  unfold assess, bind, lift_at.
  destruct (py_max dts) as [M |]; [| discriminate].
  destruct (to_UTC (arrow_get_datetime M)) as [last |] eqn:EL; [| discriminate].
  destruct (py_min dts) as [m |]; [| discriminate].
  destruct (to_UTC (arrow_get_datetime m)) as [first |] eqn:EF; [| discriminate].
  destruct (to_UTC_returns _ _ EL) as [-> _].
  destruct (to_UTC_returns _ _ EF) as [-> _].
  intros H. exists M, m. split; [reflexivity |]. split; [reflexivity |].
  destruct (negb (truthy target)); simpl in H.
  - match type of H with context [two_hours <? ?x] => destruct (two_hours <? x) end;
      inversion H; subst; split; reflexivity.
  - inversion H; subst. split; reflexivity.
Qed.

(** X8.  Whenever a freshness report is produced, its first and last
    datetimes are the instants, in UTC, of the datetimes that [min] and
    [max] return, which are datetimes of the batch; every datetime of the
    batch lies between the two in whatever order Python's comparisons give
    the batch, so between [first] and [last] when that is the order of the
    instants; and computing the report has written nothing and printed
    nothing. *)
Theorem report_brackets_the_batch :
  forall dts target w rep w',
    assess clock dts target w = (Returned rep, w') ->
    exists m M,
      py_min dts = Ok m /\ py_max dts = Ok M
      /\ In m dts /\ In M dts
      /\ first_dt rep = utc_arrow (instant m)
      /\ last_dt rep = utc_arrow (instant M)
      /\ (forall k, orders_by k dts -> forall d, In d dts -> k m <= k d <= k M)
      /\ (orders_by instant dts ->
          forall d, In d dts ->
            a_wall (first_dt rep) <= instant d <= a_wall (last_dt rep))
      /\ sink_calls w' = sink_calls w /\ out w' = out w.
Proof.
  intros dts target w rep w' H.
  destruct (assess_quiet clock dts target _ _ _ H) as [Hs Ho].
  destruct (assess_returned _ _ _ _ _ H) as (M & m & EM & Em & Hf & Hl).
  assert (Hne : dts <> []) by (intros ->; discriminate).
  assert (B : forall k, orders_by k dts -> forall d, In d dts -> k m <= k d <= k M).
  { intros k Hk d Hd.
    destruct (py_min_first k dts Hne Hk) as (m' & Em' & Hm').
    destruct (py_max_first k dts Hne Hk) as (M' & EM' & HM').
    rewrite Em in Em'. rewrite EM in EM'. inversion Em'; inversion EM'; subst m' M'.
    split; [eapply first_least_le | eapply first_greatest_ge]; eauto. }
  exists m, M. split; [exact Em |]. split; [exact EM |].
  split; [now apply py_min_In |]. split; [now apply py_max_In |].
  split; [exact Hf |]. split; [exact Hl |]. split; [exact B |].
  split; [| now split].
  intros Hk d Hd. rewrite Hf, Hl. cbn [utc_arrow a_wall]. now apply B.
Qed.

(** X9.  The freshness step fails in exactly three ways, and then leaves
    the world as it found it: on an empty list with [ValueError]; on a list
    that mixes naive and aware datetimes with [TypeError]; and, when [min]
    and [max] have returned, with [OverflowError] if the instant of the
    greatest or of the least datetime is no date of the years 1..9999.  In
    every other case it returns a report. *)
Theorem when_the_report_fails :
  forall dts target w,
    (dts = [] -> assess clock dts target w = (Raised (mk_tb Validate ValueError), w))
    /\ (dts <> [] -> same_awareness dts = false ->
        assess clock dts target w = (Raised (mk_tb Validate TypeError), w))
    /\ (dts <> [] -> same_awareness dts = true ->
        exists m M,
          py_min dts = Ok m /\ py_max dts = Ok M
          /\ (representable (instant M) && representable (instant m) = false ->
              assess clock dts target w = (Raised (mk_tb Validate OverflowError), w))
          /\ (representable (instant M) && representable (instant m) = true ->
              exists rep w', assess clock dts target w = (Returned rep, w'))).
Proof.
  intros dts target w. split; [| split].
  - intros ->. reflexivity.
  - intros NE H. destruct dts as [| d0 l]; [congruence |].
    unfold assess, bind, lift_at. cbn [py_max same_awareness] in *.
    now rewrite (max_from_mixed l _ d0 eq_refl H).
  - intros NE H. destruct dts as [| d0 l]; [congruence |].
    cbn [same_awareness] in H.
    destruct (max_from_same l _ d0 eq_refl H) as (M & EM).
    destruct (min_from_same l _ d0 eq_refl H) as (m & Em).
    exists m, M. split; [exact Em |]. split; [exact EM |]. split.
    + intros Hr. now apply assess_overflow with (M := M) (m := m).
    + intros Hr. apply andb_prop in Hr. destruct Hr as [RM Rm].
      assert (EL : to_UTC (arrow_get_datetime M) = Ok (utc_arrow (instant M)))
        by now rewrite to_UTC_instant, RM.
      assert (EF : to_UTC (arrow_get_datetime m) = Ok (utc_arrow (instant m)))
        by now rewrite to_UTC_instant, Rm.
      rewrite (assess_computed clock (d0 :: l) target w M m _ _ EM EL Em EF).
      destruct (truthy target); [now eexists _, _ |].
      match goal with |- context [two_hours <? ?x] => destruct (two_hours <? x) end;
        now eexists _, _.
Qed.

End Reports.

(** ** More on the guard *)

(** X10.  Decorating twice is decorating once: the outer guard has nothing
    left to catch, so the run is that of the inner guard, and the inner
    policy decides what a failure returns. *)
Theorem guard_of_guard :
  forall (clock : nat -> Z) (Args : Type) (f : Args -> M pyval)
         (outer inner : bool) (args : Args) (w : world),
    catch_exceptions clock outer (catch_exceptions clock inner f) args w
    = catch_exceptions clock inner f args w.
Proof.
  intros clock Args f outer inner args w.
  destruct (guard_total clock Args f inner args w) as (v & w' & E).
  rewrite E. now apply guard_returned.
Qed.

(** ** The two tests for an exchange *)

Lemma contains_exchange p : forall s,
  str_contains "exchange" (p ++ "exchange" ++ s) = true.
Proof.
  induction p as [| c p IH]; intros s.
  - destruct s as [| c s]; reflexivity.
  - change (String c p ++ "exchange" ++ s) with (String c (p ++ "exchange" ++ s)).
    rewrite str_contains_cons, IH. apply orb_true_r.
Qed.

(** X11.  The series name carries the zone for every data type that
    contains "exchange" anywhere (line 115), while the zone is split into
    two arguments only for the two exact names of line 79: the second
    test implies the first. *)
Theorem zone_in_series_name :
  forall p s zone,
    series_target (p ++ "exchange" ++ s) zone = (p ++ "exchange" ++ s) ++ zone
    /\ (forall data_type,
           str_in data_type ["exchange"; "exchangeForecast"] = true ->
           series_target data_type zone = data_type ++ zone).
Proof.
  intros p s zone. split.
  - unfold series_target. now rewrite contains_exchange.
  - intros data_type H. unfold str_in in H. cbn [existsb] in H.
    apply orb_prop in H. destruct H as [H | H].
    + apply String.eqb_eq in H. subst. reflexivity.
    + rewrite orb_false_r in H. apply String.eqb_eq in H. subst. reflexivity.
Qed.

(** ** Before the fetch result *)

Section BeforeTheResult.

Variable PARSER_KEY_TO_DICT : string -> option (string -> option parser).
Variable arrow_parse : pyval -> result Arrow.
Variable clock : nat -> Z.
Variable sink_answer : list write_call -> DataFrame -> string -> option pyexn.
Variable verbose : bool.

Local Abbreviation fetch := (fetch PARSER_KEY_TO_DICT arrow_parse clock).
Local Abbreviation run :=
  (parse_to_influx PARSER_KEY_TO_DICT arrow_parse clock sink_answer verbose).

(** The positional arguments of line 83. *)
Definition args_of (zone data_type : string) : list string :=
  if str_in data_type ["exchange"; "exchangeForecast"] then split zone "->" else [zone].

(** [fetch] after the target has been resolved to [t]. *)
Lemma fetch_resolved zone data_type target w :
  fetch zone data_type target w
  = match (if truthy target
           then match arrow_get arrow_parse target with
                | Ok a => Ok (VDatetime (arrow_datetime a))
                | Raise e => Raise e
                end
           else Ok target) with
    | Raise e => (Raised (mk_tb Resolve e), w)
    | Ok t =>
        let w1 := mk_world (S (reads w)) (sink_calls w) (out w) in
        match parser_lookup PARSER_KEY_TO_DICT data_type zone with
        | Raise e => (Raised (mk_tb Lookup e), w1)
        | Ok p =>
            match p (args_of zone data_type) t with
            | Raise e => (Raised (mk_tb Fetch e), w1)
            | Ok res => (Returned (t, clock (reads w), res), w1)
            end
        end
    end.
Proof.
  unfold fetch, bind, lift_at, read_clock, ret, args_of.
  destruct (truthy target).
  - destruct (arrow_get arrow_parse target) as [a | e]; [| reflexivity].
    cbn zeta. destruct (parser_lookup PARSER_KEY_TO_DICT data_type zone) as [p | e];
      [| reflexivity].
    match goal with |- context [p ?a ?b] => destruct (p a b) end; reflexivity.
  - cbn zeta. destruct (parser_lookup PARSER_KEY_TO_DICT data_type zone) as [p | e];
      [| reflexivity].
    match goal with |- context [p ?a ?b] => destruct (p a b) end; reflexivity.
Qed.

(** X12.  The target that reaches the fetch capability is the argument
    itself when that is falsy, and otherwise an offset-aware datetime made
    by [arrow]: a naive datetime given as target is taken to be in UTC, an
    aware one keeps its fields, its [tzinfo] and its offset.  The capability is called with
    the zone split in two for the two exchange types and with the zone
    alone otherwise, and [start] is the clock reading taken before the
    lookup. *)
Theorem what_the_capability_receives :
  forall zone data_type target w t start res w1,
    fetch zone data_type target w = (Returned (t, start, res), w1) ->
    (exists p,
        parser_lookup PARSER_KEY_TO_DICT data_type zone = Ok p
        /\ p (args_of zone data_type) t = Ok res)
    /\ start = clock (reads w)
    /\ w1 = mk_world (S (reads w)) (sink_calls w) (out w)
    /\ (truthy target = false -> t = target)
    /\ (truthy target = true ->
        exists d, t = VDatetime d /\ is_aware d = true)
    /\ (forall d0,
           target = VDatetime d0 ->
           t = VDatetime (mk_datetime (wall d0)
                            (Some (match tz d0 with Some z => z | None => (UTC, 0) end)))).
Proof.
  intros zone data_type target w t start res w1. rewrite fetch_resolved.
  destruct (truthy target) eqn:Ht.
  - destruct (arrow_get arrow_parse target) as [a | e] eqn:A; [| discriminate].
    cbn zeta. destruct (parser_lookup PARSER_KEY_TO_DICT data_type zone) as [p | e];
      [| discriminate].
    destruct (p (args_of zone data_type) (VDatetime (arrow_datetime a))) as [r | e] eqn:P;
      [| discriminate].
    intros H. inversion H; subst. split; [now exists p |].
    split; [reflexivity |]. split; [reflexivity |]. split; [discriminate |].
    split; [intros _; now eexists |].
    intros d0 ->. cbn [arrow_get] in A. inversion A; subst.
    unfold arrow_get_datetime. destruct (tz d0) as [[i off] |]; reflexivity.
  - cbn zeta. destruct (parser_lookup PARSER_KEY_TO_DICT data_type zone) as [p | e];
      [| discriminate].
    destruct (p (args_of zone data_type) target) as [r | e] eqn:P; [| discriminate].
    intros H. inversion H; subst. split; [now exists p |].
    split; [reflexivity |]. split; [reflexivity |]. split; [reflexivity |].
    split; [discriminate |]. intros d0 ->. discriminate.
Qed.

(** X13.  A run that fails before there is a fetch result touches neither
    the sink nor the rest of the pipeline and prints the traceback alone.
    A truthy target that [arrow] cannot parse ends the run before the
    registry is consulted; a data type or zone without a registered
    capability ends it with [KeyError] before anything is fetched; an
    exception of the capability ends it before anything is normalized. *)
Theorem failure_before_the_result :
  forall zone data_type target w,
    (forall e,
        truthy target = true ->
        arrow_get arrow_parse target = Raise e ->
        run zone data_type target w
        = (Returned VNone,
           mk_world (S (reads w)) (sink_calls w)
             (out w ++ [TracebackAt (clock (reads w)) (mk_tb Resolve e)])%list))
    /\ (forall tb w1,
           fetch zone data_type target w = (Raised tb, w1) ->
           tb_stage tb = Lookup ->
           tb_exn tb = KeyError
           /\ run zone data_type target w
              = (Returned VNone,
                 mk_world (S (S (reads w))) (sink_calls w)
                   (out w ++ [TracebackAt (clock (S (reads w))) (mk_tb Lookup KeyError)])%list))
    /\ (forall tb w1,
           fetch zone data_type target w = (Raised tb, w1) ->
           tb_stage tb = Fetch ->
           run zone data_type target w
           = (Returned VNone,
              mk_world (S (S (reads w))) (sink_calls w)
                (out w ++ [TracebackAt (clock (S (reads w))) tb])%list)).
Proof.
  intros zone data_type target w. split; [| split].
  - intros e Ht A. rewrite run_of_body, body_unfold, fetch_resolved, Ht, A.
    reflexivity.
  - intros tb w1 E Hs. rewrite run_of_body, body_unfold. rewrite fetch_resolved in *.
    destruct (if truthy target then _ else _) as [t | e]; cbn zeta in *.
    + unfold parser_lookup in *.
      destruct (PARSER_KEY_TO_DICT data_type) as [by_zone |].
      * destruct (by_zone zone) as [p |].
        -- destruct (p (args_of zone data_type) t); inversion E; subst; discriminate.
        -- inversion E; subst. split; reflexivity.
      * inversion E; subst. split; reflexivity.
    + inversion E; subst. discriminate.
  - intros tb w1 E Hs. rewrite run_of_body, body_unfold. rewrite fetch_resolved in *.
    destruct (if truthy target then _ else _) as [t | e]; cbn zeta in *.
    + destruct (parser_lookup PARSER_KEY_TO_DICT data_type zone) as [p | e].
      * destruct (p (args_of zone data_type) t); inversion E; subst. reflexivity.
      * inversion E; subst. discriminate.
    + inversion E; subst. discriminate.
Qed.

End BeforeTheResult.

(** ** Flattening twice *)

Lemma leaves_of_flat_row (row : FlatRow) :
  flat_row row -> leaves row None = row.
Proof.
  induction 1 as [| [k v] row Hv _ IH]; [reflexivity |].
  cbn [leaves underscore_reducer]. rewrite IH.
  destruct v; try reflexivity. discriminate.
Qed.

(** X17.  A row that [flatten] returns has no mapping among its values and
    no key twice, and flattening it again returns it unchanged. *)
Theorem flatten_is_idempotent :
  forall d row,
    flatten (VDict d) = Ok row ->
    flat_row row
    /\ distinct (map fst row) = true
    /\ flatten (VDict row) = Ok row.
Proof.
  intros d row H. rewrite flatten_distinct in H.
  destruct (distinct (map fst (leaves d None))) eqn:E; [| discriminate].
  inversion H; subst. pose proof (leaves_flat d None) as F.
  split; [exact F |]. split; [exact E |].
  rewrite flatten_distinct, (leaves_of_flat_row _ F), E. reflexivity.
Qed.

(** ** The program's schedule *)

Section Program.

Variable PARSER_KEY_TO_DICT : string -> option (string -> option parser).
Variable arrow_parse : pyval -> result Arrow.
Variable clock : nat -> Z.
Variable sink_answer : list write_call -> DataFrame -> string -> option pyexn.
Variable verbose : bool.

Local Abbreviation run :=
  (parse_to_influx PARSER_KEY_TO_DICT arrow_parse clock sink_answer verbose).
Local Abbreviation register_jobs :=
  (register_jobs PARSER_KEY_TO_DICT arrow_parse clock sink_answer verbose).
Local Abbreviation main :=
  (main PARSER_KEY_TO_DICT arrow_parse clock sink_answer verbose).

(** A job function that returns [None] from every world. *)
Definition returns_None (m : M pyval) : Prop :=
  forall w, exists w', m w = (Returned VNone, w').

Definition all_return_None (js : list Job) : Prop :=
  Forall (fun j => returns_None (job_func j)) js.

Lemma store_job_returns_None j' js :
  returns_None (job_func j') -> all_return_None js -> all_return_None (store_job j' js).
Proof.
  intros Hj. unfold all_return_None, store_job.
  induction 1 as [| j js Hx _ IH]; simpl; constructor; try exact IH.
  destruct (Nat.eqb (job_id j) (job_id j')); assumption.
Qed.

(** Running a job that returns [None] keeps every entry of the list. *)
Lemma _run_job_keeps job s :
  returns_None (job_func job) ->
  all_return_None (jobs s) ->
  exists s',
    _run_job clock job s = (Returned tt, s')
    /\ all_return_None (jobs s')
    /\ map job_id (jobs s') = map job_id (jobs s)
    /\ ran s' = (ran s ++ [job_id job])%list.
Proof.
  intros Hj Hs. destruct (Hj (wld s)) as (w' & E).
  unfold _run_job, Job_run, bind. rewrite E. cbn.
  eexists. split; [reflexivity |]. cbn [jobs ran].
  split; [now apply store_job_returns_None |].
  split; [apply store_job_ids | reflexivity].
Qed.

Lemma run_jobs_keeps todo : forall s,
  all_return_None todo ->
  all_return_None (jobs s) ->
  exists s',
    run_jobs clock todo s = (Returned tt, s')
    /\ all_return_None (jobs s')
    /\ map job_id (jobs s') = map job_id (jobs s)
    /\ ran s' = (ran s ++ map job_id todo)%list.
Proof.
  induction todo as [| job rest IH]; intros s Htodo Hs.
  - exists s. cbn. rewrite app_nil_r. now repeat split.
  - inversion Htodo as [| ? ? Hjob Hrest]; subst.
    destruct (_run_job_keeps job s Hjob Hs) as (s1 & E & Hs1 & I1 & R1).
    destruct (IH s1 Hrest Hs1) as (s2 & E2 & Hs2 & I2 & R2).
    exists s2. cbn [run_jobs]. rewrite E. split; [exact E2 |].
    split; [exact Hs2 |]. split; [congruence |].
    rewrite R2, R1, <- app_assoc. reflexivity.
Qed.

Lemma all_return_None_incl js js' :
  incl js' js -> all_return_None js -> all_return_None js'.
Proof.
  unfold all_return_None. intros Hsub H. apply Forall_forall. intros j Hj.
  apply Hsub in Hj. revert j Hj. now apply Forall_forall.
Qed.

Lemma run_pending_keeps s :
  all_return_None (jobs s) ->
  exists s' later,
    run_pending clock s = (Returned tt, s')
    /\ all_return_None (jobs s')
    /\ map job_id (jobs s') = map job_id (jobs s)
    /\ ran s' = (ran s ++ later)%list.
Proof.
  intros Hs. unfold run_pending.
  pose proof (runnable_jobs_incl clock (jobs s) (reads (wld s))) as Hsub.
  destruct (runnable_jobs clock (jobs s) (reads (wld s))) as [todo n].
  cbn [fst] in Hsub.
  destruct (run_jobs_keeps (sorted_jobs todo)
              (mk_sched (jobs s) (mk_world n (sink_calls (wld s)) (out (wld s))) (ran s)))
    as (s' & E & Hs' & I & R).
  - eapply all_return_None_incl; [| exact Hs].
    eapply incl_tran; [apply sorted_jobs_incl | exact Hsub].
  - exact Hs.
  - exists s', (map job_id (sorted_jobs todo)). now repeat split.
Qed.

Lemma polling_loop_keeps n : forall s,
  all_return_None (jobs s) ->
  exists s' later,
    polling_loop clock n s = (Returned tt, s')
    /\ map job_id (jobs s') = map job_id (jobs s)
    /\ ran s' = (ran s ++ later)%list.
Proof.
  induction n as [| n IH]; intros s Hs.
  - exists s, []. cbn. rewrite app_nil_r. now repeat split.
  - destruct (run_pending_keeps s Hs) as (s1 & l1 & E & Hs1 & I1 & R1).
    destruct (IH s1 Hs1) as (s2 & l2 & E2 & I2 & R2).
    exists s2, (l1 ++ l2)%list. cbn [polling_loop]. rewrite E.
    split; [exact E2 |]. split; [congruence |].
    rewrite R2, R1, <- app_assoc. reflexivity.
Qed.

Lemma run_returns_None_always zone data_type target :
  returns_None (run zone data_type target).
Proof. intros w. apply run_returns_None. Qed.

Lemma every_do_returns_None per f s :
  returns_None f -> all_return_None (jobs s) ->
  all_return_None (jobs (every_do clock per f s)).
Proof.
  intros Hf Hs. unfold every_do, all_return_None. cbn [jobs].
  apply Forall_app. split; [exact Hs | now repeat constructor].
Qed.

Lemma registered_jobs_return_None w :
  all_return_None (jobs (register_jobs (mk_sched [] w []))).
Proof.
  unfold register_jobs, exchange_zones. cbn [fold_left].
  repeat (apply every_do_returns_None; [apply run_returns_None_always |]).
  constructor.
Qed.

(** X14.  In the program no job is ever dropped and the loop never stops:
    for any number of turns, [main] returns normally with the seventeen
    registered jobs still in the list; the warm-up pass has started each
    of them once, in the order of registration, before any polling. *)
Theorem program_keeps_every_job :
  forall turns w,
    exists s later,
      main turns w = (Returned tt, s)
      /\ map job_id (jobs s) = seq 0 17
      /\ ran s = (seq 0 17 ++ later)%list.
Proof.
  intros turns w. unfold main, run_all.
  pose proof (registered_jobs_return_None w) as G.
  destruct (run_jobs_keeps _ _ G G) as (s1 & E & G1 & I1 & R1). rewrite E.
  destruct (polling_loop_keeps turns s1 G1) as (s2 & later & L & I2 & R2).
  exists s2, later. split; [exact L |]. split.
  - rewrite I2, I1. reflexivity.
  - rewrite R2, R1. reflexivity.
Qed.

End Program.

(** ** A pass of the scheduler *)

From Stdlib Require Import Permutation Sorted.

Section Passes.

Variable clock : nat -> Z.

Lemma runnable_jobs_due js : forall n j,
  In j (fst (runnable_jobs clock js n)) ->
  In j js
  /\ exists k, (n <= k < n + length js)%nat /\ next_run j <= clock k.
Proof.
  induction js as [| x js IH]; intros n j H; [destruct H |].
  cbn [runnable_jobs] in H. specialize (IH (S n) j).
  destruct (runnable_jobs clock js (S n)) as [rest n']. cbn [fst] in *.
  destruct (Z.leb_spec (next_run x) (clock n)) as [Hdue | Hnot].
  - destruct H as [<- | H].
    + split; [now left |]. exists n. cbn [length]. split; [lia | exact Hdue].
    + destruct (IH H) as (Hin & k & Hk & Hd). split; [now right |].
      exists k. cbn [length]. split; [lia | exact Hd].
  - destruct (IH H) as (Hin & k & Hk & Hd). split; [now right |].
    exists k. cbn [length]. split; [lia | exact Hd].
Qed.

Lemma in_sorted_jobs j js : In j (sorted_jobs js) -> In j js.
Proof. apply sorted_jobs_incl. Qed.

(** X15.  A pass of [run_pending] starts only jobs that were due: every
    job it starts is registered and its [next_run] is not later than a
    clock reading taken while the pass examined the list (one reading per
    registered job).  Whatever the pass does, the runs started before it
    stay recorded. *)
Theorem only_due_jobs_are_started :
  forall s o s',
    run_pending clock s = (o, s') ->
    exists started,
      ran s' = (ran s ++ started)%list
      /\ forall id,
           In id started ->
           exists j k,
             In j (jobs s) /\ job_id j = id
             /\ (reads (wld s) <= k < reads (wld s) + length (jobs s))%nat
             /\ next_run j <= clock k.
Proof.
  intros s o s'. unfold run_pending.
  pose proof (runnable_jobs_due (jobs s) (reads (wld s))) as Hdue.
  destruct (runnable_jobs clock (jobs s) (reads (wld s))) as [todo n].
  cbn [fst] in Hdue. intros H.
  destruct (run_jobs_trace clock _ _ _ _ H) as (started & Hran & Hsub & _).
  exists started. split; [exact Hran |].
  intros id Hid. apply Hsub in Hid. apply in_map_iff in Hid.
  destruct Hid as (j & Hj & Hin). apply in_sorted_jobs in Hin.
  destruct (Hdue j Hin) as (Hreg & k & Hk & Hd).
  now exists j, k.
Qed.

Lemma insert_job_perm j sorted : Permutation (insert_job j sorted) (j :: sorted).
Proof.
  induction sorted as [| k rest IH]; cbn [insert_job]; [reflexivity |].
  destruct (next_run j <? next_run k); [reflexivity |].
  rewrite IH. apply perm_swap.
Qed.

Lemma insert_job_sorted j sorted :
  StronglySorted (fun a b => next_run a <= next_run b) sorted ->
  StronglySorted (fun a b => next_run a <= next_run b) (insert_job j sorted).
Proof.
  induction 1 as [| k rest Hs IH Hall]; cbn [insert_job].
  - repeat constructor.
  - destruct (Z.ltb_spec (next_run j) (next_run k)) as [Hlt | Hge].
    + constructor; [now constructor |]. constructor; [lia |].
      eapply Forall_impl; [| exact Hall]. cbv beta. intros a Ha. lia.
    + constructor; [exact IH |].
      eapply Permutation_Forall; [symmetry; apply insert_job_perm |].
      constructor; [exact Hge | exact Hall].
Qed.

Lemma sorted_jobs_spec js :
  Permutation (sorted_jobs js) js
  /\ StronglySorted (fun a b => next_run a <= next_run b) (sorted_jobs js).
Proof.
  unfold sorted_jobs.
  assert (G : forall acc,
             StronglySorted (fun a b => next_run a <= next_run b) acc ->
             Permutation (fold_left (fun acc j => insert_job j acc) js acc) (acc ++ js)
             /\ StronglySorted (fun a b => next_run a <= next_run b)
                  (fold_left (fun acc j => insert_job j acc) js acc)).
  { induction js as [| j js IH]; intros acc Hacc; cbn [fold_left].
    - rewrite app_nil_r. now split.
    - destruct (IH (insert_job j acc) (insert_job_sorted j acc Hacc)) as [P S].
      split; [| exact S]. rewrite P, insert_job_perm.
      apply Permutation_middle. }
  destruct (G [] (SSorted_nil _)) as [P S]. now split.
Qed.

Lemma run_jobs_started todo : forall s s',
  run_jobs clock todo s = (Returned tt, s') ->
  ran s' = (ran s ++ map job_id todo)%list.
Proof.
  induction todo as [| job rest IH]; intros s s' H; cbn [run_jobs] in H.
  - inversion H; subst. cbn. now rewrite app_nil_r.
  - destruct (_run_job clock job s) as [[[] | tb] s1] eqn:E; [| discriminate].
    destruct (_run_job_trace clock _ _ _ _ E) as [R _].
    rewrite (IH _ _ H), R, <- app_assoc. reflexivity.
Qed.

(** X16.  A pass that ends normally has started exactly the jobs found
    due, each once, earliest [next_run] first: the order is that of the
    due times, not that of registration. *)
Theorem a_pass_runs_in_due_order :
  forall s s',
    run_pending clock s = (Returned tt, s') ->
    exists order,
      ran s' = (ran s ++ map job_id order)%list
      /\ Permutation order (fst (runnable_jobs clock (jobs s) (reads (wld s))))
      /\ StronglySorted (fun a b => next_run a <= next_run b) order.
Proof.
  intros s s'. unfold run_pending.
  destruct (runnable_jobs clock (jobs s) (reads (wld s))) as [todo n].
  intros H. exists (sorted_jobs todo).
  split; [exact (run_jobs_started _ _ _ H) |]. apply sorted_jobs_spec.
Qed.

End Passes.

(** ** The columns of the frame *)

Module ColumnFacts.

Lemma str_in_cons k x l : str_in k (x :: l) = String.eqb k x || str_in k l.
Proof. reflexivity. Qed.

Lemma distinct_snoc cols k :
  distinct cols = true -> str_in k cols = false -> distinct (cols ++ [k])%list = true.
Proof.
  induction cols as [| x cols IH]; intros Hd Hk; [reflexivity |].
  cbn [distinct app] in *. apply andb_prop in Hd. destruct Hd as [Hx Hd].
  rewrite str_in_cons in Hk. apply orb_false_elim in Hk. destruct Hk as [Hkx Hk].
  rewrite (IH Hd Hk), andb_true_r, str_in_app, str_in_cons.
  apply negb_true_iff in Hx. rewrite Hx, String.eqb_sym, Hkx. reflexivity.
Qed.

Lemma add_columns_spec ks : forall cols k,
  str_in k (add_columns cols ks) = str_in k cols || str_in k ks.
Proof.
  induction ks as [| x ks IH]; intros cols k; cbn [add_columns].
  - unfold str_in at 3. cbn [existsb]. now rewrite orb_false_r.
  - rewrite IH, (str_in_cons k x ks). destruct (str_in x cols) eqn:E.
    + destruct (String.eqb_spec k x) as [-> | _]; [now rewrite E | reflexivity].
    + rewrite str_in_app, str_in_cons. unfold str_in at 2. cbn [existsb].
      rewrite orb_false_r, orb_assoc. reflexivity.
Qed.

Lemma add_columns_distinct ks : forall cols,
  distinct cols = true -> distinct (add_columns cols ks) = true.
Proof.
  induction ks as [| x ks IH]; intros cols H; cbn [add_columns]; [exact H |].
  apply IH. destruct (str_in x cols) eqn:E; [exact H | now apply distinct_snoc].
Qed.

Lemma columns_of_spec rows : forall cols k,
  str_in k (columns_of cols rows)
  = str_in k cols || existsb (fun row => str_in k (map fst row)) rows.
Proof.
  induction rows as [| r rows IH]; intros cols k; cbn [columns_of existsb].
  - now rewrite orb_false_r.
  - now rewrite IH, add_columns_spec, orb_assoc.
Qed.

Lemma columns_of_distinct rows : forall cols,
  distinct cols = true -> distinct (columns_of cols rows) = true.
Proof.
  induction rows as [| r rows IH]; intros cols H; cbn [columns_of]; [exact H |].
  apply IH. now apply add_columns_distinct.
Qed.

End ColumnFacts.
Import ColumnFacts.

(** An entry that is absent stays absent among the cells. *)
Lemma lookup_cells_absent k (row : FlatRow) :
  lookup k row = None -> lookup k (cells_of row) = None.
Proof.
  unfold cells_of. induction row as [| [k' x] row IH]; [reflexivity |].
  rewrite lookup_cons. cbn [filter snd].
  destruct (String.eqb k k') eqn:E; [discriminate |]. intros H.
  destruct (is_None x); cbn [negb]; [now apply IH |].
  rewrite lookup_cons, E. now apply IH.
Qed.

(** The cell of a row with distinct keys: the value, unless it is [None]. *)
Lemma lookup_cells k (row : FlatRow) :
  distinct (map fst row) = true ->
  lookup k (cells_of row)
  = match lookup k row with
    | Some VNone => None
    | c => c
    end.
Proof.
  induction row as [| [k' x] row IH]; [reflexivity |].
  cbn [map fst distinct]. intros H. apply andb_prop in H. destruct H as [Hk Hd].
  apply negb_true_iff in Hk. rewrite <- has_key_str_in in Hk.
  rewrite lookup_cons. destruct (String.eqb_spec k k') as [-> | N].
  - unfold has_key in Hk. destruct (lookup k' row) eqn:L; [discriminate |].
    unfold cells_of. cbn [filter snd].
    destruct x; cbn [is_None negb]; rewrite ?lookup_cons, ?String.eqb_refl;
      try reflexivity.
    now apply lookup_cells_absent.
  - apply String.eqb_neq in N. unfold cells_of. cbn [filter snd].
    destruct (is_None x); cbn [negb]; [now apply IH |].
    rewrite lookup_cons, N. now apply IH.
Qed.

(** X18.  The frame built from the rows loses no field name: a name is a
    column exactly when it is a key of some row, also when the row has
    [None] under it, and no column comes twice, however the rows differ in
    their keys.  There is one row of cells per row, and in a row with
    distinct keys the cell of a column holds the row's value for it,
    unless that value is [None]: then the cell is missing, as it is when
    the row has no such key. *)
Theorem columns_are_the_keys :
  forall (rows : list FlatRow) k,
    str_in k (df_columns (pd_DataFrame rows))
    = existsb (fun row => has_key k row) rows
    /\ distinct (df_columns (pd_DataFrame rows)) = true
    /\ Forall2 (fun row cells =>
                  distinct (map fst row) = true ->
                  lookup k cells
                  = match lookup k row with
                    | Some VNone => None
                    | c => c
                    end)
         rows (df_rows (pd_DataFrame rows)).
Proof.
  intros rows k. cbn [pd_DataFrame df_columns df_rows]. split; [| split].
  - rewrite columns_of_spec. cbn [str_in existsb orb].
    induction rows as [| r rows IH]; [reflexivity |].
    cbn [existsb]. now rewrite IH, has_key_str_in.
  - now apply columns_of_distinct.
  - induction rows as [| r rows IH]; cbn [map]; constructor; [| exact IH].
    apply lookup_cells.
Qed.

(** A field that is [None] in one record is a column of the frame and a
    missing cell of that row. *)
Example None_is_a_missing_cell :
  pd_DataFrame [[("value", VNone); ("price", VInt 3)]; [("value", VInt 110)]]
  = mk_df None ["value"; "price"] [[("price", VInt 3)]; [("value", VInt 110)]].
Proof. reflexivity. Qed.

(** ** Concrete runs for the further properties *)

(** The rows and the frame of the two records of the scenario. *)
Definition two_rows : list FlatRow :=
  [[("datetime", VDatetime T0); ("value", VInt 100)];
   [("datetime", VDatetime T1); ("value", VInt 110)]].

Definition two_frame : DataFrame :=
  mk_df (Some [Some (VDatetime T0); Some (VDatetime T1)]) ["value"]
    [[("value", VInt 100)]; [("value", VInt 110)]].

Definition refusing : list write_call -> DataFrame -> string -> option pyexn :=
  fun _ _ _ => Some (OtherError "InfluxDBClientError").

Lemma refused_write_is_not_retried_witness :
  refusing [] two_frame "production" = Some (OtherError "InfluxDBClientError")
  /\ parse_to_influx registry no_arrow ticking refusing false "AT" "production" VNone w0
     = (Returned VNone,
        mk_world 3 [mk_call two_frame "production"]
          [TracebackAt (ticking 2) (mk_tb Write (OtherError "InfluxDBClientError"))]).
Proof.
  split; [reflexivity |].
  exact (refused_write_is_not_retried registry no_arrow ticking refusing false
           "AT" "production" VNone w0 VNone (ticking 0) two_records (mk_world 1 [] [])
           [VDatetime T0; VDatetime T1] two_rows (pd_DataFrame two_rows) two_frame
           (OtherError "InfluxDBClientError")
           eq_refl eq_refl eq_refl eq_refl eq_refl).
Defined.

Lemma successful_run_witness :
  py_min [T0; T1] = Ok T0 /\ py_max [T0; T1] = Ok T1
  /\ exists warning n stamp,
       job "production" VNone w0
       = (Returned VNone,
          mk_world n [mk_call two_frame "production"] [Fetched stamp "production" "AT"])
       /\ (truthy VNone = false -> warning <> NoWarning).
Proof.
  split; [reflexivity |]. split; [reflexivity |].
  destruct (successful_run registry no_arrow ticking accepting false
              "AT" "production" VNone w0 VNone (ticking 0) two_records (mk_world 1 [] [])
              [VDatetime T0; VDatetime T1] two_rows (pd_DataFrame two_rows) two_frame
              T0 T1 (utc_arrow 1530482400000000) (utc_arrow 1530628200000000)
              eq_refl eq_refl eq_refl eq_refl eq_refl eq_refl eq_refl eq_refl eq_refl)
    as (_ & _ & warning & n & stamp & E & _ & W).
  exists warning, n, stamp. split; [exact E | exact W].
Defined.

Lemma report_brackets_the_batch_witness :
  assess ticking [T0; T1] VNone w0
  = (Returned (mk_report (utc_arrow 1530482400000000)
                 (utc_arrow 1530628200000000) TooOld),
     mk_world 1 [] [])
  /\ exists m M,
       py_min [T0; T1] = Ok m /\ py_max [T0; T1] = Ok M
       /\ utc_arrow 1530482400000000 = utc_arrow (instant m)
       /\ utc_arrow 1530628200000000 = utc_arrow (instant M)
       /\ forall d, In d [T0; T1] -> 1530482400000000 <= instant d <= 1530628200000000.
Proof.
  split; [reflexivity |].
  destruct (report_brackets_the_batch ticking [T0; T1] VNone w0
              (mk_report (utc_arrow 1530482400000000)
                 (utc_arrow 1530628200000000) TooOld)
              (mk_world 1 [] []) eq_refl)
    as (m & M & Em & EM & _ & _ & Hf & Hl & _ & B & _).
  exists m, M. split; [exact Em |]. split; [exact EM |].
  split; [exact Hf |]. split; [exact Hl |].
  apply B. now apply fixed_offsets_orders.
Defined.

(** A naive datetime given as target reaches the capability as the same
    wall-clock time in UTC. *)
Lemma what_the_capability_receives_witness :
  fetch registry no_arrow ticking "AT" "production"
    (VDatetime (mk_datetime 1530628200000000 None)) w0
  = (Returned (VDatetime T1, ticking 0, two_records), mk_world 1 [] [])
  /\ VDatetime T1 = VDatetime (mk_datetime 1530628200000000 (Some (UTC, 0))).
Proof.
  split; [reflexivity |].
  exact (proj2 (proj2 (proj2 (proj2 (proj2
           (what_the_capability_receives registry no_arrow ticking
              "AT" "production" (VDatetime (mk_datetime 1530628200000000 None)) w0
              (VDatetime T1) (ticking 0) two_records (mk_world 1 [] []) eq_refl)))))
           (mk_datetime 1530628200000000 None) eq_refl).
Defined.

Lemma s0_is_guarded : all_guarded (jobs s0).
Proof.
  repeat constructor.
  - intros w. apply guard_total.
  - intros w. destruct (run_returns_None registry no_arrow ticking accepting false
                          "AT" "production" VNone w) as (w' & E).
    now exists VNone, w'.
Qed.

Lemma only_due_jobs_are_started_witness :
  exists started,
    ran (snd (run_pending ticking s0)) = ([] ++ started)%list
    /\ forall id,
         In id started ->
         exists j k,
           In j [fragile; steady] /\ job_id j = id
           /\ (0 <= k < 0 + 2)%nat /\ next_run j <= ticking k.
Proof.
  exact (only_due_jobs_are_started ticking s0 (fst (run_pending ticking s0))
           (snd (run_pending ticking s0)) (surjective_pairing _)).
Defined.

Lemma a_pass_runs_in_due_order_witness :
  exists s' order,
    run_pending ticking s0 = (Returned tt, s')
    /\ ran s' = ([] ++ map job_id order)%list
    /\ StronglySorted (fun a b => next_run a <= next_run b) order.
Proof.
  destruct (run_pending_guarded ticking s0 s0_is_guarded) as (s' & E & _).
  destruct (a_pass_runs_in_due_order ticking s0 s' E) as (order & R & _ & S).
  exists s', order. split; [exact E |]. split; [exact R | exact S].
Defined.

Lemma flatten_is_idempotent_witness :
  flatten (VDict [("breakdown", VDict [("coal", VInt 10)])])
  = Ok [("breakdown_coal", VInt 10)]
  /\ flatten (VDict [("breakdown_coal", VInt 10)]) = Ok [("breakdown_coal", VInt 10)].
Proof.
  split; [reflexivity |].
  exact (proj2 (proj2 (flatten_is_idempotent
                         [("breakdown", VDict [("coal", VInt 10)])]
                         [("breakdown_coal", VInt 10)] eq_refl))).
Defined.
